(** * python-ts3: the ServerQuery protocol layer of [ts3.py]

    A shallow embedding of [ts3.py] (Python 2): the escape table, the
    codec ([_escape_str], [_unescape_str], [construct_command],
    [parse_command]) and the session ([connect], [disconnect], [send],
    [send_command]), followed by the properties established about them.

    Python byte strings are [string]; exceptions are an explicit result
    type; the session object and the socket it talks to are threaded
    through a small state-and-exception monad. *)

From Stdlib Require Import Ascii String ZArith Lia Permutation DecimalString
  DecimalFacts DecimalPos.
From stdpp Require Import base strings list gmap.

Local Open Scope string_scope.
Local Open Scope list_scope.

(** ** Python string primitives *)

Module PyStr.

Definition chr (n : nat) : ascii := ascii_of_nat n.

Definition eqc (a b : ascii) : bool := Ascii.eqb a b.

(** [c in s] for a one-character [c]. *)
Fixpoint mem (c : ascii) (s : string) : bool :=
  match s with
  | EmptyString => false
  | String x s' => eqc x c || mem c s'
  end.

(** [s.startswith(p)] *)
Fixpoint startswith (p s : string) : bool :=
  match p, s with
  | EmptyString, _ => true
  | String _ _, EmptyString => false
  | String a p', String b s' => eqc a b && startswith p' s'
  end.

(** The scan of [s.replace(old, new)] for a non-empty [old]: occurrences
    are found left to right and do not overlap; [skip] counts the
    characters of the occurrence just replaced that are still to be
    passed over. *)
Fixpoint replace_from (old new : string) (skip : nat) (s : string) : string :=
  match s with
  | EmptyString => EmptyString
  | String c s' =>
      match skip with
      | S k => replace_from old new k s'
      | O =>
          if startswith old s
          then new +:+ replace_from old new (String.length old - 1) s'
          else String c (replace_from old new 0 s')
      end
  end.

(** [old == ""]: Python puts [new] before every character and at the end. *)
Fixpoint intersperse (new s : string) : string :=
  match s with
  | EmptyString => new
  | String c s' => new +:+ String c (intersperse new s')
  end.

(** [s.replace(old, new)] *)
Definition replace (old new s : string) : string :=
  match old with
  | EmptyString => intersperse new s
  | String _ _ => replace_from old new 0 s
  end.

(** [s.split(sep)] for a one-character separator, which is what every
    call in [ts3.py] passes.  The result is never empty. *)
Fixpoint split (sep : ascii) (s : string) : list string :=
  match s with
  | EmptyString => [EmptyString]
  | String c s' =>
      if eqc c sep then EmptyString :: split sep s'
      else match split sep s' with
           | h :: t => String c h :: t
           | [] => [String c EmptyString]
           end
  end.

(** [sep.join(l)] *)
Fixpoint join (sep : string) (l : list string) : string :=
  match l with
  | [] => EmptyString
  | [x] => x
  | x :: xs => x +:+ sep +:+ join sep xs
  end.

(** The characters [str.strip()] removes: space, TAB, LF, VT, FF, CR. *)
Definition isspace (c : ascii) : bool :=
  let n := nat_of_ascii c in
  Nat.eqb n 32 || (Nat.leb 9 n && Nat.leb n 13).

Fixpoint lstrip (s : string) : string :=
  match s with
  | EmptyString => EmptyString
  | String c s' => if isspace c then lstrip s' else s
  end.

Fixpoint rstrip (s : string) : string :=
  match s with
  | EmptyString => EmptyString
  | String c s' =>
      match rstrip s' with
      | EmptyString => if isspace c then EmptyString else String c EmptyString
      | r => String c r
      end
  end.

(** [s.strip()] *)
Definition strip (s : string) : string := rstrip (lstrip s).

(** What replacing the one-character pattern [c] does to the
    character [x]. *)
Definition subst1 (c : ascii) (new : string) (x : ascii) : string :=
  if eqc c x then new else String x "".

(** ["%d" % n] *)
Definition fmt_d (n : Z) : string := NilZero.string_of_int (Z.to_int n).

End PyStr.

(** ** Values and exceptions *)

(** What [_escape_str] accepts: an [int] or a [str]. *)
Inductive pyval : Type :=
| PyInt (n : Z)
| PyStr (s : string).

(** A value of the [keys] argument of [construct_command]: a scalar or
    one nested list. *)
Inductive cmdval : Type :=
| Scalar (v : pyval)
| Nested (l : list pyval).

(** A value of the [keys] dictionary [parse_command] builds. *)
Inductive keyval : Type :=
| KStr (s : string)
| KList (l : list string).

#[global] Instance keyval_eq_dec : EqDecision keyval.
Proof. solve_decision. Defined.

(** Errors of the socket layer, identified by their errno. *)
Inductive socket_error : Type :=
| SockErr (errno : Z).

Inductive exn : Type :=
| IndexError
| KeyError (k : string)
| AttributeError (name : string)
| UnboundLocalError (name : string)
| SocketError (e : socket_error)
| ConnectionError (ip : string) (port : Z).

Inductive result (A : Type) : Type :=
| Ok (a : A)
| Err (e : exn).
Arguments Ok {A} a.
Arguments Err {A} e.

Definition rbind {A B} (r : result A) (k : A -> result B) : result B :=
  match r with
  | Ok a => k a
  | Err e => Err e
  end.

Declare Scope result_scope.
Delimit Scope result_scope with result.
Notation "'try' x := r 'in' k" := (rbind r (fun x => k))
  (at level 10, x name, r at level 100, k at level 200)
  : result_scope.

(** [l[i]] on a list: [IndexError] out of range. *)
Definition getitem {A} (l : list A) (i : nat) : result A :=
  match l !! i with
  | Some x => Ok x
  | None => Err IndexError
  end.

(** ** The escape table *)

Definition bslash : string := "\".

(** [ts3_escape], in the order of the dictionary display. *)
Definition ts3_escape : list (string * string) :=
  [ ("/", "\/");
    (" ", "\s");
    ("|", "\p");
    (String (PyStr.chr 7) "", "\a");
    (String (PyStr.chr 8) "", "\b");
    (String (PyStr.chr 12) "", "\f");
    (String (PyStr.chr 10) "", "\n");
    (String (PyStr.chr 13) "", "\r");
    (String (PyStr.chr 9) "", "\t");
    (String (PyStr.chr 11) "", "\v") ].

(** ** Codec *)

Module TS3Proto.

Section Codec.

(** [ts3_escape.iteritems()]: the pairs of the table in the order the
    interpreter iterates the dictionary, which Python 2 leaves
    unspecified.  The properties below are stated for every order. *)
Variable items : list (string * string).

(** [for i, j in ...: value = value.replace(i, j)] *)
Definition escape_loop (value : string) : string :=
  fold_left (fun value ij => PyStr.replace (fst ij) (snd ij) value)
            items value.

Definition _escape_str (value : pyval) : string :=
  match value with
  | PyInt n => PyStr.fmt_d n
  | PyStr s =>
      let value := PyStr.replace bslash (bslash +:+ bslash) s in
      escape_loop value
  end.

(** [for i, j in ...: value = value.replace(j, i)] *)
Definition unescape_loop (value : string) : string :=
  fold_left (fun value ij => PyStr.replace (snd ij) (fst ij) value)
            items value.

Definition _unescape_str (value : pyval) : string :=
  match value with
  | PyInt n => PyStr.fmt_d n
  | PyStr s =>
      let value := PyStr.replace (bslash +:+ bslash) bslash s in
      unescape_loop value
  end.

(** ["%s=%s" % (key, self._escape_str(v))] *)
Definition fmt_pair (key : string) (v : pyval) : string :=
  key +:+ "=" +:+ _escape_str v.

(** The body of [for key in keys]: one token appended to [cstr]. *)
Definition construct_key (cstr : list string) (kv : string * cmdval)
  : list string :=
  match snd kv with
  | Nested l =>
      let ncstr :=
        fold_left (fun ncstr nest => ncstr ++ [fmt_pair (fst kv) nest]) l []
      in cstr ++ [PyStr.join "|" ncstr]
  | Scalar v => cstr ++ [fmt_pair (fst kv) v]
  end.

(** [keys] is a dictionary given by its pairs in iteration order;
    [None] and the empty dictionary are both falsy, and so are [None]
    and the empty list for [opts]. *)
Definition construct_command (command : string)
    (keys : option (list (string * cmdval)))
    (opts : option (list string)) : string :=
  let cstr := [] ++ [command] in
  let cstr :=
    match keys with
    | Some (kv :: kvs) => fold_left construct_key (kv :: kvs) cstr
    | _ => cstr
    end in
  let cstr :=
    match opts with
    | Some (o :: os) =>
        fold_left (fun cstr opt => cstr ++ ["-" +:+ opt]) (o :: os) cstr
    | _ => cstr
    end in
  PyStr.join " " cstr.

(** The dictionary [parse_command] returns: ['keys'], ['opts'] and,
    only when the command is non-empty, ['command']. *)
Record parsed : Type := Parsed {
  p_command : option string;
  p_keys : gmap string keyval;
  p_opts : list string
}.

(** The inner loop [for nkey in nkeys]: [okey] is bound by the loop
    and [output] grows; a piece without [=] has no [nvalue[1]]. *)
Definition nested_step (st : option string * list string) (nkey : string)
  : result (option string * list string) :=
  let nvalue := PyStr.split "=" nkey in
  (try okey := getitem nvalue 0 in
   try v := getitem nvalue 1 in
   Ok (Some okey, snd st ++ [v]))%result.

Fixpoint nested_loop (nkeys : list string)
    (st : option string * list string)
  : result (option string * list string) :=
  match nkeys with
  | [] => Ok st
  | nkey :: rest =>
      (try st' := nested_step st nkey in nested_loop rest st')%result
  end.

(** The body of [for key in cmdlist[start:]]. *)
Definition scan_token (st : gmap string keyval * list string)
    (key : string) : result (gmap string keyval * list string) :=
  let '(keys, opts) := st in
  if Nat.ltb 1 (length (PyStr.split "|" key)) then
    let nkeys := PyStr.split "|" key in
    (try r := nested_loop nkeys (None, []) in
     match fst r with
     | Some okey => Ok (<[okey := KList (snd r)]> keys, opts)
     | None => Err (UnboundLocalError "okey")
     end)%result
  else if Nat.ltb 1 (length (PyStr.split "=" key)) then
    let nvalue := PyStr.split "=" key in
    (try k := getitem nvalue 0 in
     try v := getitem nvalue 1 in
     Ok (<[k := KStr (_unescape_str (PyStr v))]> keys, opts))%result
  else
    match key with
    | EmptyString => Err IndexError
    | String c rest =>
        if PyStr.eqc c "-" then Ok (keys, opts ++ [rest])
        else Ok (keys, opts)
    end.

Fixpoint scan_tokens (toks : list string)
    (st : gmap string keyval * list string)
  : result (gmap string keyval * list string) :=
  match toks with
  | [] => Ok st
  | key :: rest => (try st' := scan_token st key in scan_tokens rest st')%result
  end.

(** [parse_command] from the token list on. *)
Definition parse_tokens (cmdlist : list string) : result parsed :=
  (try command := getitem cmdlist 0 in
   let '(start, command) :=
     if Nat.ltb 1 (length (PyStr.split "=" command))
     then (0, EmptyString) else (1, command) in
   try st := scan_tokens (drop start cmdlist) (∅, []) in
   Ok (Parsed (match command with
               | EmptyString => None
               | _ => Some command
               end) (fst st) (snd st)))%result.

Definition parse_command (commandstr : string) : result parsed :=
  parse_tokens (PyStr.split " " (PyStr.strip commandstr)).

End Codec.

(** ** Session *)

(** An instance attribute: never assigned, [None], or an object. *)
Inductive attr (A : Type) : Type :=
| Unset
| PyNone
| Obj (a : A).
Arguments Unset {A}.
Arguments PyNone {A}.
Arguments Obj {A} a.

(** The socket object [socket.socket(AF_INET, SOCK_STREAM)] once
    connected to [(ip, port)]. *)
Record socket : Type := Socket { peer_ip : string; peer_port : Z }.

(** The fields of a [TS3Proto] instance.  [bytesin], [bytesout] and
    [_connected] start from the class attributes. *)
Record session : Type := Session {
  bytesin : Z;
  bytesout : Z;
  _connected : bool;
  _sock : attr socket;
  _sockfile : attr socket
}.

Definition new_session : session :=
  {| bytesin := 0; bytesout := 0; _connected := false;
     _sock := Unset; _sockfile := Unset |}.

(** What the session acts on: the peer and the logger. *)
Record world : Type := World {
  refuse : option socket_error;  (* the error [s.connect] meets, if any *)
  incoming : list string;        (* lines the peer still delivers *)
  eof : bool;                    (* the peer closes after them *)
  sent : list string;            (* payloads written, oldest first *)
  closed : bool;                 (* [close()] was called *)
  logged : list string           (* log records, oldest first *)
}.

Inductive outcome (A : Type) : Type :=
| Return (a : A)
| Raise (e : exn)
| Hang.                          (* blocks or loops for ever *)
Arguments Return {A} a.
Arguments Raise {A} e.
Arguments Hang {A}.

Definition io (A : Type) : Type :=
  session -> world -> outcome A * session * world.

Definition ret {A} (a : A) : io A := fun st w => (Return a, st, w).
Definition raise {A} (e : exn) : io A := fun st w => (Raise e, st, w).

Definition bind {A B} (m : io A) (k : A -> io B) : io B :=
  fun st w =>
    match m st w with
    | (Return a, st', w') => k a st' w'
    | (Raise e, st', w') => (Raise e, st', w')
    | (Hang, st', w') => (Hang, st', w')
    end.

Declare Scope io_scope.
Delimit Scope io_scope with io.
Notation "'try' x := m 'in' k" := (bind m (fun x => k))
  (at level 10, x name, m at level 100, k at level 200) : io_scope.
Notation "m ';;' k" := (bind m (fun _ => k))
  (at level 100, k at level 200, right associativity) : io_scope.

Definition get : io session := fun st w => (Return st, st, w).
Definition modify (f : session -> session) : io unit :=
  fun st w => (Return tt, f st, w).
Definition act (f : world -> world) : io unit :=
  fun st w => (Return tt, st, f w).

(** Reading the attribute [self._sockfile] and calling a method on it. *)
Definition sockfile : io socket :=
  fun st w =>
    match _sockfile st with
    | Obj f => (Return f, st, w)
    | PyNone => (Raise (AttributeError "NoneType"), st, w)
    | Unset => (Raise (AttributeError "_sockfile"), st, w)
    end.

Definition log (msg : string) : io unit :=
  act (fun w => {| refuse := refuse w; incoming := incoming w; eof := eof w;
                   sent := sent w; closed := closed w;
                   logged := logged w ++ [msg] |}).

(** [self._sockfile.write(payload)]; the file object is unbuffered. *)
Definition write (payload : string) : io unit :=
  (sockfile ;;
   act (fun w => {| refuse := refuse w; incoming := incoming w;
                    eof := eof w; sent := sent w ++ [payload];
                    closed := closed w; logged := logged w |}))%io.

(** [self._sockfile.readline()]: the next line; at end of file the
    empty string; otherwise the call blocks. *)
Definition readline : io string :=
  (sockfile ;;
   fun st w =>
     match incoming w with
     | l :: rest =>
         (Return l, st,
          {| refuse := refuse w; incoming := rest; eof := eof w;
             sent := sent w; closed := closed w; logged := logged w |})
     | [] => if eof w then (Return EmptyString, st, w) else (Hang, st, w)
     end)%io.

Definition send (payload : string) : io unit :=
  (try self := get in
   if _connected self
   then log ("Sent: " +:+ payload) ;; write payload
   else ret tt)%io.

Definition connect (ip : string) (port : Z) : io (option bool) :=
  (let s := Socket ip port in
   (fun st w =>
      match refuse w with
      | Some e => (Raise (SocketError e), st, w)   (* except: raise *)
      | None =>
          (Return tt,
           {| bytesin := bytesin st; bytesout := bytesout st;
              _connected := _connected st;
              _sock := Obj s; _sockfile := Obj s |}, w)
      end) ;;
   try data := readline in
   if String.eqb (PyStr.strip data) "TS3"
   then modify (fun st => {| bytesin := bytesin st; bytesout := bytesout st;
                             _connected := true;
                             _sock := _sock st; _sockfile := _sockfile st |}) ;;
        ret (Some true)
   else ret None)%io.

(** What [send_command] returns: the list [ret], the value stored
    under ['id'], or nothing. *)
Inductive reply : Type :=
| Rows (rows : list (gmap string keyval))
| Status (id : keyval)
| NoReply.

Section Cycle.

Variable items : list (string * string).

(** The [while True] loop, over the lines [readline] will deliver.
    When they run out the loop never ends: it blocks in [readline]
    or, at end of file, keeps appending the keys of the empty line. *)
Fixpoint read_loop (lines : list string) (ret : list (gmap string keyval))
  : outcome (parsed * list (gmap string keyval)) * list string :=
  match lines with
  | [] => (Hang, [])
  | l :: rest =>
      match parse_command items l with
      | Err e => (Raise e, rest)
      | Ok resp =>
          match p_command resp with
          | None => read_loop rest (ret ++ [p_keys resp])
          | Some _ => (Return (resp, ret), rest)
          end
      end
  end.

Definition read_response
  : io (parsed * list (gmap string keyval)) :=
  (sockfile ;;
   fun st w =>
     let '(r, rest) := read_loop (incoming w) [] in
     (r, st, {| refuse := refuse w; incoming := rest; eof := eof w;
                sent := sent w; closed := closed w;
                logged := logged w |}))%io.

(** [resp['keys']['id']] *)
Definition status_id (resp : parsed) : io keyval :=
  match p_keys resp !! "id" with
  | Some v => ret v
  | None => raise (KeyError "id")
  end.

Definition send_command (command : string)
    (keys : option (list (string * cmdval)))
    (opts : option (list string)) : io reply :=
  (let cmd := construct_command items command keys opts in
   send (cmd +:+ String (PyStr.chr 10) "") ;;
   try r := read_response in
   let '(resp, ret_) := r in
   if bool_decide (p_command resp = Some "error") then
     match ret_ with
     | _ :: _ =>
         try id := status_id resp in
         if bool_decide (id = KStr "0") then ret (Rows ret_)
         else try id := status_id resp in ret (Status id)
     | [] => try id := status_id resp in ret (Status id)
     end
   else ret NoReply)%io.

Definition disconnect : io unit :=
  (send_command "quit" None None ;;
   (fun st w =>
      match _sock st with
      | Obj _ =>
          (Return tt, st,
           {| refuse := refuse w; incoming := incoming w; eof := eof w;
              sent := sent w; closed := true; logged := logged w |})
      | PyNone => (Raise (AttributeError "NoneType"), st, w)
      | Unset => (Raise (AttributeError "_sock"), st, w)
      end) ;;
   modify (fun st => {| bytesin := bytesin st; bytesout := bytesout st;
                        _connected := _connected st;
                        _sock := PyNone; _sockfile := _sockfile st |}) ;;
   modify (fun st => {| bytesin := bytesin st; bytesout := bytesout st;
                        _connected := false;
                        _sock := _sock st; _sockfile := _sockfile st |}) ;;
   log "Disconnected")%io.

End Cycle.

End TS3Proto.

(** ** Vocabulary of the properties *)

Module Wire.

(** The token the table gives for the character [x], if any. *)
Definition table_lookup (x : ascii) : option string :=
  snd <$> find (fun ij => String.eqb (fst ij) (String x "")) ts3_escape.

(** Escaping described one character at a time. *)
Definition escape_char (x : ascii) : string :=
  if PyStr.eqc "\" x then "\\"
  else default (String x "") (table_lookup x).

Fixpoint escape_chars (s : string) : string :=
  match s with
  | EmptyString => EmptyString
  | String x s' => escape_char x +:+ escape_chars s'
  end.

(** The first character of a table key or token. *)
Definition head_char (s : string) : ascii :=
  match s with
  | String c _ => c
  | EmptyString => PyStr.chr 0
  end.

(** The characters that separate or end something on the wire: space
    (tokens), pipe (records), and the control characters BEL, BS, FF,
    LF, CR, TAB, VT. *)
Definition separators : list ascii :=
  [ " "%char; "|"%char; PyStr.chr 7; PyStr.chr 8; PyStr.chr 12;
    PyStr.chr 10; PyStr.chr 13; PyStr.chr 9; PyStr.chr 11 ].

(** All literal characters of the escape table. *)
Definition significant : list ascii := "/"%char :: separators.

(** A piece of a pipe-joined token: [key=value], possibly followed by
    further [=]-separated fields. *)
Record piece : Type := Piece {
  pc_key : string;
  pc_value : string;
  pc_more : list string
}.

Definition piece_fields (p : piece) : list string :=
  pc_key p :: pc_value p :: pc_more p.

Definition piece_text (p : piece) : string :=
  PyStr.join "=" (piece_fields p).

(** No field holds a [=] or a [|] of its own. *)
Definition piece_ok (p : piece) : bool :=
  forallb (fun f => negb (PyStr.mem "=" f) && negb (PyStr.mem "|" f))
          (piece_fields p).

Definition pipe_token (ps : list piece) : string :=
  PyStr.join "|" (map piece_text ps).

(** The wire line as the protocol describes it: the name, one token
    per key, one [-opt] per option, joined by single spaces. *)
Definition key_token (items : list (string * string))
    (kv : string * cmdval) : string :=
  match snd kv with
  | Nested l =>
      PyStr.join "|"
        (map (fun nest =>
                fst kv +:+ "=" +:+ TS3Proto._escape_str items nest) l)
  | Scalar v => fst kv +:+ "=" +:+ TS3Proto._escape_str items v
  end.

Definition wire_line (items : list (string * string)) (name : string)
    (keys : list (string * cmdval)) (opts : list string) : string :=
  PyStr.join " "
    (name :: map (key_token items) keys ++ map (fun o => "-" +:+ o) opts).

(** A line that parses to a data line with the keys [k]. *)
Definition data_line (items : list (string * string)) (l : string)
    (k : gmap string keyval) : Prop :=
  exists o, TS3Proto.parse_command items l = Ok (TS3Proto.Parsed None k o).

(** A line that parses to a status line with command [name] and keys [k]. *)
Definition status_line (items : list (string * string)) (l : string)
    (name : string) (k : gmap string keyval) : Prop :=
  exists o,
    TS3Proto.parse_command items l = Ok (TS3Proto.Parsed (Some name) k o).

(** A session marked connected has its stream. *)
Definition session_ok (st : TS3Proto.session) : bool :=
  if TS3Proto._connected st
  then match TS3Proto._sockfile st with
       | TS3Proto.Obj _ => true
       | _ => false
       end
  else true.

(** The world after one [write] and its log record. *)
Definition written (payload : string) (w : TS3Proto.world)
  : TS3Proto.world :=
  {| TS3Proto.refuse := TS3Proto.refuse w;
     TS3Proto.incoming := TS3Proto.incoming w;
     TS3Proto.eof := TS3Proto.eof w;
     TS3Proto.sent := TS3Proto.sent w ++ [payload];
     TS3Proto.closed := TS3Proto.closed w;
     TS3Proto.logged := TS3Proto.logged w ++ ["Sent: " +:+ payload] |}.

(** No character of [s] is one [strip] removes. *)
Fixpoint blank_free (s : string) : bool :=
  match s with
  | EmptyString => true
  | String c s' => negb (PyStr.isspace c) && blank_free s'
  end.

(** Printable ASCII: codes 32 to 126. *)
Fixpoint printable (s : string) : bool :=
  match s with
  | EmptyString => true
  | String c s' =>
      let n := nat_of_ascii c in
      Nat.leb 32 n && Nat.leb n 126 && printable s'
  end.

End Wire.

(** ** The iteration order of a dictionary display *)

(** [for key in keys] visits a [dict] in the order of its hash table.
    This is the table of CPython 2.7 ([stringobject.c], [dictobject.c])
    with hash randomisation off, which is the default: eight slots for
    a display of at most five pairs, the slot of a key taken from the
    low bits of its hash, collisions resolved by the perturbed probe
    sequence, iteration by rising slot. *)
Module Py27.

Definition wrap64 (x : Z) : Z := (x mod 2 ^ 64)%Z.

Definition code (c : ascii) : Z := Z.of_nat (nat_of_ascii c).

(** [x = (1000003*x) ^ *p++] over the whole string. *)
Fixpoint hash_chars (x : Z) (s : string) : Z :=
  match s with
  | EmptyString => x
  | String c s' => hash_chars (wrap64 (Z.lxor (1000003 * x) (code c))) s'
  end.

(** [string_hash], as the unsigned value of the C [long]. *)
Definition string_hash (s : string) : Z :=
  match s with
  | EmptyString => 0%Z
  | String c _ =>
      let x := hash_chars (Z.shiftl (code c) 7) s in
      let x := Z.lxor x (Z.of_nat (String.length s)) in
      if (x =? 2 ^ 64 - 1)%Z then (2 ^ 64 - 2)%Z else x
  end.

Section Table.

Context {V : Type}.

Definition table : Type := list (option (string * V)).

Definition empty_table : table := replicate 8 None.

(** Is slot [i] free, or held by [key]? *)
Definition slot_fits (t : table) (i : Z) (key : string) : bool :=
  match t !! Z.to_nat i with
  | Some None => true
  | Some (Some (k, _)) => String.eqb k key
  | None => false
  end.

(** The loop of [lookdict_string]:
    [i = (i << 2) + i + perturb + 1], then [perturb >>= 5]. *)
Fixpoint probe (fuel : nat) (t : table) (key : string) (i perturb : Z)
  : option Z :=
  match fuel with
  | O => None
  | S fuel' =>
      let i' := wrap64 (Z.shiftl i 2 + i + perturb + 1) in
      let slot := Z.land i' 7 in
      if slot_fits t slot key then Some slot
      else probe fuel' t key i' (Z.shiftr perturb 5)
  end.

(** The slot [lookdict_string] returns for [key]. *)
Definition lookdict (t : table) (key : string) : option Z :=
  let h := string_hash key in
  let i := Z.land h 7 in
  if slot_fits t i key then Some i else probe 32 t key i h.

(** [STORE_MAP]: a new key takes its slot, a key already there keeps
    it and gets the new value. *)
Definition store (t : option table) (kv : string * V) : option table :=
  match t with
  | None => None
  | Some t =>
      match lookdict t (fst kv) with
      | Some i => Some (<[Z.to_nat i := Some kv]> t)
      | None => None
      end
  end.

(** The pairs of the display [{k1: v1, ..., kn: vn}] in iteration
    order, for [n <= 5] (a larger display starts from a larger
    table). *)
Definition dict_display (pairs : list (string * V))
  : option (list (string * V)) :=
  if Nat.leb (length pairs) 5
  then option_map (omap (fun slot => slot))
         (fold_left store pairs (Some empty_table))
  else None.

End Table.

End Py27.

(** ** The loop of [send_command], one [readline] at a time *)

Module Loop.
Import TS3Proto.

Section Steps.

Variable items : list (string * string).

(** The first [n] turns of [while True]: each turn calls [readline]
    and parses what it returns.  [None] says that the loop is still
    running after [n] turns, with [ret] as it then stands. *)
Fixpoint loop_steps (n : nat) (ret_ : list (gmap string keyval))
  : io (option (parsed * list (gmap string keyval))
        * list (gmap string keyval)) :=
  match n with
  | O => ret (None, ret_)
  | S n' =>
      (try resp := readline in
       match parse_command items resp with
       | Err e => raise e
       | Ok resp =>
           match p_command resp with
           | None => loop_steps n' (ret_ ++ [p_keys resp])
           | Some _ => ret (Some (resp, ret_), ret_)
           end
       end)%io
  end.

End Steps.

End Loop.

(** ** The server facade *)

Module TS3Server.
Import TS3Proto.

(** [d > 0] and [d == 0] for a value [send_command] returned.  CPython 2
    orders values of different types: [None] is below every number, a
    string or a list is above every number, and none of them equals a
    number. *)
Definition gt_zero (d : reply) : bool :=
  match d with
  | NoReply => false
  | Rows _ => true
  | Status _ => true
  end.

Definition eq_zero (d : reply) : bool := false.

(** What the module-level name [p] is bound to when [login] runs:
    nothing (the module was imported; only the script binds it), the
    instance [login] is called on (the script), or another instance
    with its own session and peer. *)
Inductive global_p : Type :=
| Unbound
| Itself
| Another (st : session) (w : world).

(** How a run of [login] ends: [NameError] for the unbound name, or as
    the methods of the session do. *)
Inductive login_outcome : Type :=
| NameError (name : string)
| Finished (o : outcome (option bool)).

Section Facade.

Variable items : list (string * string).

(** The order in which the interpreter iterates a dictionary display
    of more than one pair. *)
Variable dict_order : list (string * cmdval) -> list (string * cmdval).

Definition use (id : Z) : io unit :=
  (try self := get in
   if _connected self && (0 <? id)%Z
   then send_command items "use" (Some [("sid", Scalar (PyInt id))]) None ;;
        ret tt
   else ret tt)%io.

(** [TS3Server.__init__(ip, port, id, sock)] after the logger is set. *)
Definition init (ip : string) (port : Z) (id : Z) (sock : option socket)
  : io unit :=
  match sock with
  | None =>
      (try c := connect ip port in
       match c with
       | Some true => if (0 <? id)%Z then use id else ret tt
       | _ => ret tt
       end)%io
  | Some s =>
      modify (fun st => {| bytesin := bytesin st; bytesout := bytesout st;
                           _connected := true;
                           _sock := Obj s; _sockfile := Obj s |})
  end.

(** [p.send_command('login', keys={...})] as a call on one instance. *)
Definition login_request (username password : pyval) : io reply :=
  send_command items "login"
    (Some (dict_order
             [("client_login_name", Scalar username);
              ("client_login_password", Scalar password)])) None.

(** What [login] does with the value [d] that call returned. *)
Definition login_verdict (d : reply) : io (option bool) :=
  (if gt_zero d then log "Error logging in" ;; ret (Some false)
   else if eq_zero d then log "Login Successful" ;; ret (Some true)
   else ret None)%io.

(** The log is one for the process: [with_log l w] is [w] with the
    records [l]. *)
Definition with_log (l : list string) (w : world) : world :=
  {| refuse := refuse w; incoming := incoming w; eof := eof w;
     sent := sent w; closed := closed w; logged := l |}.

(** [login] sends on [p], a name of the module and not of the
    instance: the run ends in [NameError] when [p] is unbound; it acts
    on this instance when [p] is this instance; and when [p] is
    another instance the request goes through that one, with its own
    session and peer, while the verdict is logged by this one. *)
Definition login (p : global_p) (username password : pyval)
    (st : session) (w : world)
  : login_outcome * session * world * global_p :=
  match p with
  | Unbound => (NameError "p", st, w, Unbound)
  | Itself =>
      let '(o, st', w') :=
        bind (login_request username password) login_verdict st w in
      (Finished o, st', w', Itself)
  | Another stp wp =>
      match login_request username password stp (with_log (logged w) wp) with
      | (Return d, stp', wp') =>
          let '(o, st', w') :=
            login_verdict d st (with_log (logged wp') w) in
          (Finished o, st', w', Another stp' (with_log (logged w') wp'))
      | (Raise e, stp', wp') =>
          (Finished (Raise e), st, with_log (logged wp') w, Another stp' wp')
      | (Hang, stp', wp') =>
          (Finished Hang, st, with_log (logged wp') w, Another stp' wp')
      end
  end.

Definition serverlist : io reply :=
  (try self := get in
   if _connected self then send_command items "serverlist" None None
   else ret NoReply)%io.

Definition gm (msg : pyval) : io reply :=
  (try self := get in
   if _connected self
   then send_command items "gm" (Some [("msg", Scalar msg)]) None
   else ret NoReply)%io.

End Facade.

End TS3Server.

(** ** Partly escaped forms *)

Module Forms.

(** The token a list of table pairs gives for the character [x], the
    character itself when no pair has it as key. *)
Definition token_in (pairs : list (string * string)) (x : ascii) : string :=
  default (String x "")
    (snd <$> find (fun ij => String.eqb (fst ij) (String x "")) pairs).

(** [s] with the literals of [pairs], and only those, replaced by their
    tokens. *)
Fixpoint escape_with (pairs : list (string * string)) (s : string) : string :=
  match s with
  | EmptyString => EmptyString
  | String x s' => token_in pairs x +:+ escape_with pairs s'
  end.

(** The second character of a token. *)
Definition tok_letter (t : string) : ascii :=
  match t with
  | String _ (String y _) => y
  | _ => PyStr.chr 0
  end.

(** Every character of [s] is one [strip] removes. *)
Fixpoint all_blank (s : string) : bool :=
  match s with
  | EmptyString => true
  | String c s' => PyStr.isspace c && all_blank s'
  end.

(** A key or an option that survives the wire: no blank, no [=], no
    pipe. *)
Definition plain_word (k : string) : bool :=
  Wire.blank_free k && negb (PyStr.mem "=" k) && negb (PyStr.mem "|" k).

(** A command name that survives the wire: not empty, no blank, no [=]. *)
Definition plain_name (c : string) : bool :=
  negb (String.eqb c "") && Wire.blank_free c && negb (PyStr.mem "=" c).

(** A scalar that survives the wire: an [int], or a string without [=]
    and without backslash. *)
Definition plain_value (v : pyval) : bool :=
  match v with
  | PyInt _ => true
  | PyStr s => negb (PyStr.mem "=" s) && negb (PyStr.mem "\" s)
  end.

(** The [keys] dictionary after the scalar pairs [kvs] were stored in
    order. *)
Definition stored (kvs : list (string * pyval)) (m : gmap string keyval)
  : gmap string keyval :=
  fold_left (fun m kv => <[fst kv := KStr (match snd kv with
                                           | PyInt n => PyStr.fmt_d n
                                           | PyStr s => s
                                           end)]> m) kvs m.

(** The world once the lines up to the status line were read. *)
Definition unread (rest : list string) (w : TS3Proto.world)
  : TS3Proto.world :=
  {| TS3Proto.refuse := TS3Proto.refuse w;
     TS3Proto.incoming := rest;
     TS3Proto.eof := TS3Proto.eof w;
     TS3Proto.sent := TS3Proto.sent w;
     TS3Proto.closed := TS3Proto.closed w;
     TS3Proto.logged := TS3Proto.logged w |}.

(** The world after [send]: written to only when connected. *)
Definition after_send (st : TS3Proto.session) (payload : string)
    (w : TS3Proto.world) : TS3Proto.world :=
  if TS3Proto._connected st then Wire.written payload w else w.

(** What a cycle ends in, given the command and the keys of the line
    that stops the loop and the rows read before it. *)
Definition resolve (name : string) (ks : gmap string keyval)
    (rows : list (gmap string keyval)) : TS3Proto.outcome TS3Proto.reply :=
  if bool_decide (name = "error") then
    match ks !! "id" with
    | None => TS3Proto.Raise (KeyError "id")
    | Some id =>
        match rows with
        | [] => TS3Proto.Return (TS3Proto.Status id)
        | _ :: _ =>
            if bool_decide (id = KStr "0")
            then TS3Proto.Return (TS3Proto.Rows rows)
            else TS3Proto.Return (TS3Proto.Status id)
        end
    end
  else TS3Proto.Return TS3Proto.NoReply.

(** The line [send_command] writes. *)
Definition request (items : list (string * string)) (command : string)
    (keys : option (list (string * cmdval))) (opts : option (list string))
  : string :=
  TS3Proto.construct_command items command keys opts
  +:+ String (PyStr.chr 10) "".

(** Reading a decimal numeral.  [digit_value] is the value of one
    digit, [digits_value] reads a run of digits from the left, and
    [decimal_value] reads an optional minus sign and at least one
    digit. *)
Definition digit_value (c : ascii) : option Z :=
  if PyStr.mem c "0123456789"
  then Some (Z.of_nat (nat_of_ascii c) - 48)%Z
  else None.

Fixpoint digits_value (acc : Z) (s : string) : option Z :=
  match s with
  | EmptyString => Some acc
  | String c s' =>
      match digit_value c with
      | Some v => digits_value (10 * acc + v)%Z s'
      | None => None
      end
  end.

Definition decimal_value (s : string) : option Z :=
  match s with
  | EmptyString => None
  | String c ds =>
      if PyStr.eqc c "-"
      then match ds with
           | EmptyString => None
           | String _ _ => option_map Z.opp (digits_value 0 ds)
           end
      else digits_value 0 s
  end.

(** Digits only, at least one, the first of them not a zero. *)
Definition leading_digits (s : string) : bool :=
  match s with
  | EmptyString => false
  | String c _ =>
      negb (PyStr.eqc c "0")
      && match digits_value 0 s with Some _ => true | None => false end
  end.

(** The one way a number is written in decimal: [0], or digits that do
    not start with a zero, after a minus sign for a negative number. *)
Definition canonical_decimal (s : string) : bool :=
  String.eqb s "0"
  || match s with
     | EmptyString => false
     | String c ds => if PyStr.eqc c "-" then leading_digits ds
                      else leading_digits s
     end.

(** The control characters of the escape table: BEL, BS, FF, LF, CR,
    TAB, VT. *)
Definition controls : list ascii :=
  [ PyStr.chr 7; PyStr.chr 8; PyStr.chr 12; PyStr.chr 10; PyStr.chr 13;
    PyStr.chr 9; PyStr.chr 11 ].

(** The last record in the log. *)
Definition last_error (w : TS3Proto.world) : option string :=
  last (TS3Proto.logged w).

(** The string a scalar is sent as, before escaping. *)
Definition str_of (v : pyval) : string :=
  match v with
  | PyInt n => PyStr.fmt_d n
  | PyStr s => s
  end.

End Forms.

(** * Properties *)

(** ** Facts about the string primitives *)

Module PyStrFacts.
Import PyStr.

Lemma app_cons (c : ascii) (a b : string) :
  String c a +:+ b = String c (a +:+ b).
Proof. reflexivity. Qed.

Lemma app_nil_l (s : string) : "" +:+ s = s.
Proof. reflexivity. Qed.

Lemma app_nil_r (s : string) : s +:+ "" = s.
Proof.
  induction s as [|c s IH]; [reflexivity|]. now rewrite app_cons, IH.
Qed.

Lemma app_assoc (a b c : string) : (a +:+ b) +:+ c = a +:+ b +:+ c.
Proof.
  induction a as [|x a IH]; [reflexivity|]. now rewrite !app_cons, IH.
Qed.

Lemma eqc_refl (c : ascii) : eqc c c = true.
Proof. apply Ascii.eqb_refl. Qed.

Lemma eqc_true (a b : ascii) : eqc a b = true -> a = b.
Proof. apply Ascii.eqb_eq. Qed.

Lemma eqc_neq (a b : ascii) : a <> b -> eqc a b = false.
Proof. apply Ascii.eqb_neq. Qed.

Lemma mem_app (c : ascii) (a b : string) :
  mem c (a +:+ b) = mem c a || mem c b.
Proof.
  induction a as [|x a IH]; [reflexivity|].
  rewrite app_cons. simpl. rewrite IH. now rewrite orb_assoc.
Qed.

(** *** [replace] with a one-character pattern is a character map *)

Lemma replace1_cons (c : ascii) (new : string) (x : ascii) (s : string) :
  replace (String c "") new (String x s)
  = subst1 c new x +:+ replace (String c "") new s.
Proof.
  unfold replace, subst1. cbn [replace_from startswith String.length].
  destruct (eqc c x); cbn [andb Nat.sub]; reflexivity.
Qed.

Lemma replace1_nil (c : ascii) (new : string) :
  replace (String c "") new "" = "".
Proof. reflexivity. Qed.

Lemma replace1_app (c : ascii) (new a b : string) :
  replace (String c "") new (a +:+ b)
  = replace (String c "") new a +:+ replace (String c "") new b.
Proof.
  induction a as [|x a IH].
  - reflexivity.
  - rewrite app_cons, !replace1_cons, IH. now rewrite app_assoc.
Qed.

Lemma replace1_absent (c : ascii) (new s : string) :
  mem c s = false -> replace (String c "") new s = s.
Proof.
  induction s as [|x s IH]; [reflexivity|].
  simpl mem. intros H. apply orb_false_elim in H as [Hx Hs].
  rewrite replace1_cons, (IH Hs). unfold subst1.
  replace (eqc c x) with false; [reflexivity|].
  symmetry. apply eqc_neq. intros ->. now rewrite eqc_refl in Hx.
Qed.

(** *** A pattern whose first character is absent matches nowhere *)

Lemma startswith_absent (c : ascii) (old s : string) :
  mem c s = false -> startswith (String c old) s = false.
Proof.
  destruct s as [|x s]; [reflexivity|]. simpl. intros H.
  apply orb_false_elim in H as [Hx _].
  replace (eqc c x) with false; [reflexivity|].
  symmetry. apply eqc_neq. intros ->. now rewrite eqc_refl in Hx.
Qed.

Lemma replace_absent (c : ascii) (old new s : string) :
  mem c s = false -> replace (String c old) new s = s.
Proof.
  unfold replace.
  induction s as [|x s IH]; [reflexivity|]. intros H.
  cbn [replace_from]. rewrite (startswith_absent _ _ _ H).
  simpl in H. apply orb_false_elim in H as [_ Hs]. now rewrite (IH Hs).
Qed.

(** *** [split] undoes [join] *)

Lemma split_nonempty (sep : ascii) (s : string) : split sep s <> [].
Proof.
  destruct s as [|c s]; simpl; [discriminate|].
  destruct (eqc c sep); [discriminate|].
  destruct (split sep s); discriminate.
Qed.

Lemma split_plain (sep : ascii) (s : string) :
  mem sep s = false -> split sep s = [s].
Proof.
  induction s as [|c s IH]; [reflexivity|]. simpl. intros H.
  apply orb_false_elim in H as [Hc Hs].
  rewrite Hc, (IH Hs). reflexivity.
Qed.

Lemma split_app_sep (sep : ascii) (a b : string) :
  mem sep a = false ->
  split sep (a +:+ String sep b) = a :: split sep b.
Proof.
  induction a as [|c a IH]; intros H.
  - rewrite app_nil_l. simpl. now rewrite eqc_refl.
  - simpl in H. apply orb_false_elim in H as [Hc Ha].
    rewrite app_cons. simpl. rewrite Hc, (IH Ha). reflexivity.
Qed.

Lemma split_join (sep : ascii) (l : list string) :
  l <> [] ->
  Forall (fun s => mem sep s = false) l ->
  split sep (join (String sep "") l) = l.
Proof.
  intros Hne Hall. induction Hall as [|x l Hx Hl IH]; [congruence|].
  destruct l as [|y l].
  - simpl. now apply split_plain.
  - change (join (String sep "") (x :: y :: l))
      with (x +:+ String sep (join (String sep "") (y :: l))).
    rewrite split_app_sep by assumption.
    f_equal. apply IH. discriminate.
Qed.

Lemma length_split_plain (sep : ascii) (s : string) :
  mem sep s = false -> Nat.ltb 1 (length (split sep s)) = false.
Proof. intros H. now rewrite split_plain. Qed.

Lemma length_split_sep (sep : ascii) (s : string) :
  mem sep s = true -> Nat.ltb 1 (length (split sep s)) = true.
Proof.
  induction s as [|c s IH]; [discriminate|]. simpl. intros H.
  destruct (eqc c sep) eqn:E.
  - pose proof (split_nonempty sep s).
    destruct (split sep s); [congruence | reflexivity].
  - simpl in H. specialize (IH H).
    destruct (split sep s) as [|h [|h' t]];
      [discriminate IH | discriminate IH | reflexivity].
Qed.

End PyStrFacts.

(** ** The escape table and the two replacement loops *)

Module EscapeFacts.
Import PyStr PyStrFacts Wire TS3Proto.

(** Facts read off the table by evaluation. *)

Lemma table_keys_single :
  forallb (fun ij => String.eqb (fst ij) (String (head_char (fst ij)) ""))
          ts3_escape = true.
Proof. reflexivity. Qed.

Lemma table_tokens_bslash :
  forallb (fun ij => startswith bslash (snd ij)) ts3_escape = true.
Proof. reflexivity. Qed.

Lemma table_keys_not_bslash :
  forallb (fun ij => negb (mem (head_char (fst ij)) "\\")) ts3_escape = true.
Proof. reflexivity. Qed.

Lemma table_tokens_stable :
  forallb (fun e1 =>
    forallb (fun e2 =>
      String.eqb (fst e1) (fst e2) || negb (mem (head_char (fst e2)) (snd e1)))
      ts3_escape) ts3_escape = true.
Proof. reflexivity. Qed.

Lemma table_keys_nodup : NoDup (map fst ts3_escape).
Proof.
  apply (bool_decide_unpack _). vm_compute. reflexivity.
Qed.

Lemma key_single (ij : string * string) :
  In ij ts3_escape -> fst ij = String (head_char (fst ij)) "".
Proof.
  intros H. pose proof table_keys_single as T.
  rewrite forallb_forall in T. apply String.eqb_eq, T, H.
Qed.

Lemma token_bslash (ij : string * string) :
  In ij ts3_escape -> exists t, snd ij = String "\" t.
Proof.
  intros H. pose proof table_tokens_bslash as T.
  rewrite forallb_forall in T. specialize (T ij H).
  destruct (snd ij) as [|c t]; [discriminate|].
  unfold bslash in T. cbn [startswith] in T.
  apply andb_true_iff in T as [T _].
  apply eqc_true in T. subst c. now exists t.
Qed.

Section Loops.

Variable items : list (string * string).
Hypothesis from_table : forall ij, In ij items -> In ij ts3_escape.

Lemma escape_loop_app (a b : string) :
  escape_loop items (a +:+ b)
  = escape_loop items a +:+ escape_loop items b.
Proof.
  revert a b from_table.
  induction items as [|ij l IH]; intros a b H; [reflexivity|].
  unfold escape_loop in *. cbn [fold_left].
  rewrite (key_single ij) by (apply H; now left).
  rewrite replace1_app. apply IH. intros; apply H; now right.
Qed.

(** A value that holds no literal of the table goes through the
    escape loop unchanged. *)
Lemma escape_loop_id (w : string) :
  (forall ij, In ij items -> mem (head_char (fst ij)) w = false) ->
  escape_loop items w = w.
Proof.
  revert from_table.
  induction items as [|ij l IH]; intros H Hw; [reflexivity|].
  unfold escape_loop in *. cbn [fold_left].
  rewrite (key_single ij) by (apply H; now left).
  rewrite replace1_absent by (apply Hw; now left).
  apply IH; intros; [apply H | apply Hw]; now right.
Qed.

(** A value without a backslash goes through the unescape loop
    unchanged. *)
Lemma unescape_loop_id (w : string) :
  mem "\" w = false -> unescape_loop items w = w.
Proof.
  revert from_table.
  induction items as [|ij l IH]; intros H Hw; [reflexivity|].
  unfold unescape_loop in *. cbn [fold_left].
  destruct (token_bslash ij) as [t ->]; [apply H; now left|].
  rewrite replace_absent by assumption.
  apply IH; [|assumption]. intros; apply H; now right.
Qed.

End Loops.

Lemma escape_loop_key (items : list (string * string)) (x : ascii)
    (tok : string) :
  (forall ij, In ij items -> In ij ts3_escape) ->
  NoDup (map fst items) ->
  In (String x "", tok) items ->
  escape_loop items (String x "") = tok.
Proof.
  induction items as [|ij l IH]; intros Hsub Hnd Hin; [destruct Hin|].
  assert (Hij : In ij ts3_escape) by (apply Hsub; now left).
  assert (Hl : forall e, In e l -> In e ts3_escape)
    by (intros; apply Hsub; now right).
  inversion Hnd as [|k ks Hk Hnd']; subst.
  change (escape_loop (ij :: l) (String x ""))
    with (escape_loop l (replace (fst ij) (snd ij) (String x ""))).
  rewrite (key_single ij Hij), replace1_cons, replace1_nil, app_nil_r.
  unfold subst1. destruct (eqc (head_char (fst ij)) x) eqn:E.
  - apply eqc_true in E.
    assert (Hfst : fst ij = String x "")
      by (rewrite (key_single ij Hij); now rewrite E).
    assert (Htok : snd ij = tok).
    { destruct Hin as [->|Hin]; [reflexivity|]. exfalso. apply Hk.
      rewrite Hfst. apply list_elem_of_In, (in_map fst _ _ Hin). }
    rewrite Htok. apply escape_loop_id; [assumption|].
    intros e He. pose proof table_tokens_stable as T.
    rewrite forallb_forall in T. specialize (T ij Hij).
    rewrite forallb_forall in T. specialize (T e (Hl e He)).
    apply orb_true_iff in T as [T|T].
    + apply String.eqb_eq in T. exfalso. apply Hk. rewrite T.
      now apply list_elem_of_In, in_map.
    + rewrite <- Htok. now apply negb_true_iff.
  - apply IH; try assumption.
    destruct Hin as [->|Hin]; [|assumption].
    simpl in E. now rewrite eqc_refl in E.
Qed.

Section Order.

(** Any order in which the dictionary may be iterated. *)
Variable items : list (string * string).
Hypothesis order : Permutation items ts3_escape.

Lemma order_from_table : forall ij, In ij items -> In ij ts3_escape.
Proof. intros ij. apply Permutation_in, order. Qed.

Lemma order_to_items : forall ij, In ij ts3_escape -> In ij items.
Proof. intros ij. apply Permutation_in. symmetry. apply order. Qed.

Lemma order_nodup : NoDup (map fst items).
Proof.
  assert (H : map fst items ≡ₚ map fst ts3_escape)
    by apply Permutation_map, order.
  rewrite H. apply table_keys_nodup.
Qed.

Lemma escape_loop_char (x : ascii) :
  escape_loop items (replace bslash (bslash +:+ bslash) (String x ""))
  = escape_char x.
Proof.
  unfold bslash. rewrite replace1_cons, replace1_nil, app_nil_r.
  unfold subst1, escape_char. destruct (eqc "\" x) eqn:E.
  - apply escape_loop_id; [apply order_from_table|].
    intros ij Hij. pose proof table_keys_not_bslash as T.
    rewrite forallb_forall in T.
    apply negb_true_iff, T, order_from_table, Hij.
  - unfold table_lookup.
    destruct (find _ ts3_escape) as [ij|] eqn:F; simpl.
    + apply find_some in F as [Hin Hk]. apply String.eqb_eq in Hk.
      apply escape_loop_key;
        [apply order_from_table | apply order_nodup |].
      apply order_to_items. rewrite <- Hk. now destruct ij.
    + apply escape_loop_id; [apply order_from_table|].
      intros ij Hij. apply order_from_table in Hij.
      pose proof (find_none _ _ F ij Hij) as N. simpl in N.
      apply String.eqb_neq in N. simpl. rewrite orb_false_r.
      apply eqc_neq. intros Hx. apply N.
      rewrite (key_single ij Hij). now rewrite <- Hx.
Qed.

(** Whatever the iteration order, [_escape_str] maps every character
    on its own: backslash to two backslashes, a literal of the table
    to its token, any other character to itself. *)
Lemma escape_str_chars (s : string) :
  _escape_str items (PyStr s) = escape_chars s.
Proof.
  unfold _escape_str. induction s as [|x s IH].
  - apply escape_loop_id; [apply order_from_table|]. reflexivity.
  - change (String x s) with (String x "" +:+ s).
    unfold bslash at 1 2 3. rewrite replace1_app.
    rewrite escape_loop_app by apply order_from_table.
    fold bslash. rewrite IH, escape_loop_char. reflexivity.
Qed.

End Order.

End EscapeFacts.

(** ** Escaping and unescaping *)

Module Escaping.
Import PyStr PyStrFacts Wire TS3Proto EscapeFacts.

Lemma bslash_no_separator (c : ascii) :
  In c separators -> mem c "\\" = false.
Proof. simpl. intuition (subst; reflexivity). Qed.

Lemma tokens_no_separator :
  forallb (fun ij => forallb (fun c => negb (mem c (snd ij))) separators)
          ts3_escape = true.
Proof. reflexivity. Qed.

Lemma separators_in_table :
  forallb (fun c => bool_decide (is_Some (table_lookup c))) separators = true.
Proof. reflexivity. Qed.

Lemma escape_char_no_separator (x c : ascii) :
  In c separators -> mem c (escape_char x) = false.
Proof.
  intros Hc. unfold escape_char. destruct (eqc "\" x) eqn:E.
  - now apply bslash_no_separator.
  - destruct (table_lookup x) as [tok|] eqn:F; simpl.
    + unfold table_lookup in F.
      destruct (find _ ts3_escape) as [ij|] eqn:G; [|discriminate].
      injection F as <-. apply find_some in G as [Hin _].
      pose proof tokens_no_separator as T.
      rewrite forallb_forall in T. specialize (T ij Hin).
      rewrite forallb_forall in T. now apply negb_true_iff, T.
    + rewrite orb_false_r. apply eqc_neq. intros ->.
      pose proof separators_in_table as T.
      rewrite forallb_forall in T. specialize (T c Hc).
      apply bool_decide_eq_true in T. rewrite F in T.
      now destruct T.
Qed.

Lemma escape_chars_no_separator (s : string) (c : ascii) :
  In c separators -> mem c (escape_chars s) = false.
Proof.
  intros Hc. induction s as [|x s IH]; [reflexivity|].
  cbn [escape_chars]. rewrite mem_app, IH.
  now rewrite escape_char_no_separator.
Qed.

Lemma digits_no_separator (c : ascii) (d : Decimal.uint) :
  In c separators -> mem c (NilEmpty.string_of_uint d) = false.
Proof.
  intros Hc. induction d; cbn [NilEmpty.string_of_uint mem];
    try rewrite IHd; try reflexivity;
    rewrite orb_false_r; apply eqc_neq; intros <-;
    simpl in Hc; intuition discriminate.
Qed.

Lemma fmt_d_no_separator (c : ascii) (n : Z) :
  In c separators -> mem c (fmt_d n) = false.
Proof.
  intros Hc. unfold fmt_d, NilZero.string_of_int, NilZero.string_of_uint.
  destruct (Z.to_int n) as [d|d].
  - destruct d; try (now apply digits_no_separator).
    apply (digits_no_separator c (Decimal.D0 Decimal.Nil) Hc).
  - cbn [mem].
    assert (Hu : forall u, mem c (match u with
                                  | Decimal.Nil => "0"
                                  | _ => NilEmpty.string_of_uint u
                                  end) = false).
    { intros u. destruct u; try (now apply digits_no_separator).
      apply (digits_no_separator c (Decimal.D0 Decimal.Nil) Hc). }
    rewrite Hu, orb_false_r. apply eqc_neq. intros <-.
    simpl in Hc; intuition discriminate.
Qed.

(** C10, as the code has it: whatever the iteration order of the
    table, the output of [_escape_str] holds no space, no pipe and none
    of the control characters BEL, BS, FF, LF, CR, TAB, VT; the forward
    slash is not in this list, because its token keeps it. *)
Theorem escape_str_no_separator (items : list (string * string))
    (value : pyval) (c : ascii) :
  Permutation items ts3_escape ->
  In c separators ->
  mem c (_escape_str items value) = false.
Proof.
  intros Hp Hc. destruct value as [n|s].
  - now apply fmt_d_no_separator.
  - rewrite (escape_str_chars items Hp). now apply escape_chars_no_separator.
Qed.

Lemma escape_str_no_separator_witness :
  Permutation ts3_escape ts3_escape /\
  In " "%char separators /\
  mem " " (_escape_str ts3_escape (PyStr "a b|c")) = false.
Proof.
  split; [reflexivity|]. split; [simpl; tauto|].
  apply (escape_str_no_separator ts3_escape (PyStr "a b|c") " ");
    [reflexivity | simpl; tauto].
Defined.

(** C10 as stated does not hold: the escaped form of a forward slash
    still holds a forward slash. *)
Lemma escape_str_keeps_slash :
  In "/"%char significant /\
  _escape_str ts3_escape (PyStr "/") = "\/" /\
  mem "/" (_escape_str ts3_escape (PyStr "/")) = true /\
  ~ (forall (items : list (string * string)) (s : string) (c : ascii),
        Permutation items ts3_escape -> In c significant ->
        mem c (_escape_str items (PyStr s)) = false).
Proof.
  split; [simpl; tauto|]. split; [reflexivity|]. split; [reflexivity|].
  intros H.
  specialize (H ts3_escape "/" "/"%char (Permutation_refl _)
                (or_introl eq_refl)).
  discriminate H.
Qed.

(** The unescape loop on backslash-s: the pass for the space token
    rewrites it, every other pass leaves it alone. *)
Lemma unescape_loop_bslash_s (items : list (string * string)) :
  (forall ij, In ij items -> In ij ts3_escape) ->
  In (" ", "\s") items ->
  unescape_loop items "\s" = " ".
Proof.
  induction items as [|ij l IH]; intros Hsub Hin; [destruct Hin|].
  assert (Hl : forall e, In e l -> In e ts3_escape)
    by (intros; apply Hsub; now right).
  change (unescape_loop (ij :: l) "\s")
    with (unescape_loop l (replace (snd ij) (fst ij) "\s")).
  destruct (decide (ij = (" ", "\s"))) as [->|Hne].
  - change (replace (snd (" ", "\s")) (fst (" ", "\s")) "\s") with " ".
    now apply unescape_loop_id.
  - assert (Hrep : replace (snd ij) (fst ij) "\s" = "\s").
    { specialize (Hsub ij (or_introl eq_refl)). simpl in Hsub.
      repeat (destruct Hsub as [<-|Hsub]; [first [reflexivity | congruence]|]).
      destruct Hsub. }
    rewrite Hrep. apply IH; [assumption|].
    destruct Hin as [->|Hin]; [congruence | assumption].
Qed.

(** C1 at the input backslash-s (printable ASCII): [_escape_str] gives
    backslash-backslash-s, and [_unescape_str], which collapses the two
    backslashes before it runs the table, then reads backslash-s as the
    token of the space.  The round trip returns a space. *)
Theorem unescape_escape_bslash_s (items : list (string * string)) :
  Permutation items ts3_escape ->
  printable "\s" = true /\
  _escape_str items (PyStr "\s") = "\\s" /\
  _unescape_str items (PyStr (_escape_str items (PyStr "\s"))) = " " /\
  _unescape_str items (PyStr (_escape_str items (PyStr "\s"))) <> "\s".
Proof.
  intros Hp.
  assert (He : _escape_str items (PyStr "\s") = "\\s")
    by now rewrite (escape_str_chars items Hp).
  assert (Hu : _unescape_str items (PyStr "\\s") = " ").
  { unfold _unescape_str.
    change (replace (bslash +:+ bslash) bslash "\\s") with "\s".
    apply unescape_loop_bslash_s.
    - now apply order_from_table.
    - apply (order_to_items items Hp). simpl. tauto. }
  rewrite He, Hu. repeat split; try reflexivity. discriminate.
Qed.

Lemma unescape_escape_bslash_s_witness :
  _unescape_str ts3_escape (PyStr (_escape_str ts3_escape (PyStr "\s")))
  = " ".
Proof.
  apply (unescape_escape_bslash_s ts3_escape). reflexivity.
Defined.

End Escaping.

(** ** Parsing a line *)

Module Parsing.
Import PyStr PyStrFacts Wire TS3Proto EscapeFacts.

Lemma mem_join (c : ascii) (sep : string) (l : list string) :
  mem c sep = false ->
  Forall (fun s => mem c s = false) l ->
  mem c (join sep l) = false.
Proof.
  intros Hsep Hall. induction Hall as [|x l Hx Hl IH]; [reflexivity|].
  destruct l as [|y l]; [exact Hx|].
  change (join sep (x :: y :: l)) with (x +:+ sep +:+ join sep (y :: l)).
  now rewrite !mem_app, Hx, Hsep, IH.
Qed.

Lemma piece_ok_fields (p : piece) :
  piece_ok p = true ->
  Forall (fun f => mem "=" f = false) (piece_fields p) /\
  Forall (fun f => mem "|" f = false) (piece_fields p).
Proof.
  unfold piece_ok. rewrite forallb_forall. intros H.
  split; apply List.Forall_forall; intros f Hf; specialize (H f Hf);
    apply andb_true_iff in H as [H1 H2]; now apply negb_true_iff.
Qed.

Lemma split_piece (p : piece) :
  piece_ok p = true -> split "=" (piece_text p) = piece_fields p.
Proof.
  intros H. apply piece_ok_fields in H as [H _].
  unfold piece_text. now apply split_join.
Qed.

Lemma piece_no_pipe (p : piece) :
  piece_ok p = true -> mem "|" (piece_text p) = false.
Proof.
  intros H. apply piece_ok_fields in H as [_ H].
  unfold piece_text. now apply mem_join.
Qed.

Lemma split_pipe_token (ps : list piece) :
  ps <> [] -> forallb piece_ok ps = true ->
  split "|" (pipe_token ps) = map piece_text ps.
Proof.
  intros Hne H. unfold pipe_token. apply split_join.
  - now destruct ps.
  - rewrite forallb_forall in H. apply List.Forall_forall.
    intros t Ht. apply in_map_iff in Ht as [p [<- Hp]].
    apply piece_no_pipe, H, Hp.
Qed.

Lemma nested_step_piece (st : option string * list string) (p : piece) :
  piece_ok p = true ->
  nested_step st (piece_text p) = Ok (Some (pc_key p), snd st ++ [pc_value p]).
Proof.
  intros H. unfold nested_step. now rewrite (split_piece p H).
Qed.

(** The inner loop over the pieces [ps] followed by [p]: [okey] ends
    as the key of [p], [output] gains every value in order. *)
Lemma nested_loop_pieces (ps : list piece) (p : piece)
    (st : option string * list string) :
  forallb piece_ok (ps ++ [p]) = true ->
  nested_loop (map piece_text (ps ++ [p])) st
  = Ok (Some (pc_key p), snd st ++ map pc_value (ps ++ [p])).
Proof.
  revert st. induction ps as [|q ps IH]; intros st H.
  - simpl in H. apply andb_true_iff in H as [H _].
    cbn [app map nested_loop]. rewrite (nested_step_piece st p H).
    reflexivity.
  - cbn [app forallb] in H. apply andb_true_iff in H as [Hq H].
    cbn [app map nested_loop]. rewrite (nested_step_piece st q Hq).
    cbn [rbind]. rewrite (IH _ H). cbn [snd].
    now rewrite <- List.app_assoc.
Qed.

(** The loop body on a token made of two or more pipe-joined
    [key=value] pieces: the values of all pieces, in order and as they
    stand, go under the key of the last piece, and nothing else
    changes. *)
Lemma scan_token_nested_last_key (items : list (string * string))
    (ps : list piece) (p : piece)
    (keys : gmap string keyval) (opts : list string) :
  ps <> [] ->
  forallb piece_ok (ps ++ [p]) = true ->
  scan_token items (keys, opts) (pipe_token (ps ++ [p]))
  = Ok (<[pc_key p := KList (map pc_value (ps ++ [p]))]> keys, opts).
Proof.
  intros Hne H. unfold scan_token.
  rewrite split_pipe_token by (try assumption; now destruct ps).
  replace (Nat.ltb 1 (length (map piece_text (ps ++ [p])))) with true.
  - rewrite (nested_loop_pieces ps p _ H). reflexivity.
  - destruct ps as [|q [|q' ps]]; [congruence | reflexivity | reflexivity].
Qed.

(** A non-empty token that matches no rule is skipped. *)
Lemma scan_token_unmatched (items : list (string * string))
    (st : gmap string keyval * list string) (c : ascii) (key : string) :
  mem "|" (String c key) = false ->
  mem "=" (String c key) = false ->
  c <> "-"%char ->
  scan_token items st (String c key) = Ok st.
Proof.
  intros Hp He Hc. unfold scan_token. destruct st as [keys opts].
  rewrite (length_split_plain _ _ Hp), (length_split_plain _ _ He).
  now rewrite (eqc_neq _ _ Hc).
Qed.

(** The empty token has no first character. *)
Lemma scan_token_empty (items : list (string * string))
    (st : gmap string keyval * list string) :
  scan_token items st "" = Err IndexError.
Proof. now destruct st. Qed.

(** A piece without [=] has no second field. *)
Lemma nested_step_no_eq (st : option string * list string) (nkey : string) :
  mem "=" nkey = false -> nested_step st nkey = Err IndexError.
Proof. intros H. unfold nested_step. now rewrite split_plain. Qed.

(** A token without pipe is split at every [=]; the first field is the
    key and the second field alone, unescaped, is the value. *)
Lemma scan_token_fields (items : list (string * string))
    (k v : string) (more : list string)
    (keys : gmap string keyval) (opts : list string) :
  Forall (fun f => mem "=" f = false) (k :: v :: more) ->
  Forall (fun f => mem "|" f = false) (k :: v :: more) ->
  scan_token items (keys, opts) (join "=" (k :: v :: more))
  = Ok (<[k := KStr (_unescape_str items (PyStr v))]> keys, opts).
Proof.
  intros He Hp. unfold scan_token.
  rewrite length_split_plain by now apply mem_join.
  rewrite split_join by (try assumption; discriminate).
  reflexivity.
Qed.

(** *** Lines of two tokens *)

Lemma blank_free_no_space (s : string) :
  blank_free s = true -> mem " " s = false.
Proof.
  induction s as [|c s IH]; [reflexivity|]. cbn [blank_free mem].
  intros H. apply andb_true_iff in H as [Hc Hs]. rewrite (IH Hs).
  rewrite orb_false_r. apply eqc_neq. intros ->. discriminate Hc.
Qed.

Lemma lstrip_blank_free (s : string) : blank_free s = true -> lstrip s = s.
Proof.
  destruct s as [|c s]; [reflexivity|]. cbn [blank_free lstrip].
  intros H. apply andb_true_iff in H as [Hc _].
  now destruct (isspace c).
Qed.

Lemma rstrip_blank_free (s : string) : blank_free s = true -> rstrip s = s.
Proof.
  induction s as [|c s IH]; [reflexivity|]. cbn [blank_free rstrip].
  intros H. apply andb_true_iff in H as [Hc Hs]. rewrite (IH Hs).
  destruct s; [|reflexivity]. now destruct (isspace c).
Qed.

Lemma rstrip_app (a b : string) :
  b <> "" -> rstrip b = b -> rstrip (a +:+ b) = a +:+ b.
Proof.
  intros Hne Hb. induction a as [|c a IH]; [exact Hb|].
  rewrite app_cons. cbn [rstrip]. rewrite IH.
  destruct (a +:+ b) eqn:E; [|reflexivity].
  destruct a; [now rewrite app_nil_l in E | discriminate E].
Qed.

Lemma strip_two_tokens (cmd tok : string) :
  cmd <> "" -> blank_free cmd = true ->
  tok <> "" -> blank_free tok = true ->
  strip (cmd +:+ " " +:+ tok) = cmd +:+ " " +:+ tok.
Proof.
  intros Hc Hbc Ht Hbt. unfold strip.
  destruct cmd as [|c cmd]; [congruence|].
  cbn [blank_free] in Hbc. apply andb_true_iff in Hbc as [Hsp _].
  rewrite app_cons. cbn [lstrip].
  destruct (isspace c); [discriminate Hsp|].
  rewrite <- app_cons, <- app_assoc.
  apply rstrip_app; [assumption | now apply rstrip_blank_free].
Qed.

(** A command name and one token, separated by one space, parse to
    the name and whatever the scan of the token leaves. *)
Lemma parse_command_two_tokens (items : list (string * string))
    (cmd tok : string) :
  cmd <> "" -> blank_free cmd = true -> mem "=" cmd = false ->
  tok <> "" -> blank_free tok = true ->
  parse_command items (cmd +:+ " " +:+ tok)
  = rbind (scan_token items (∅, []) tok)
      (fun st => Ok (Parsed (Some cmd) (fst st) (snd st))).
Proof.
  intros Hc Hbc Hec Ht Hbt. unfold parse_command.
  rewrite strip_two_tokens by assumption.
  change (cmd +:+ " " +:+ tok) with (cmd +:+ String " " tok).
  rewrite split_app_sep by now apply blank_free_no_space.
  rewrite split_plain by now apply blank_free_no_space.
  unfold parse_tokens. cbn [getitem lookup list_lookup rbind].
  rewrite (length_split_plain _ _ Hec). cbn [drop scan_tokens].
  destruct (scan_token items (∅, []) tok) as [st|e]; cbn [rbind];
    [|reflexivity].
  destruct cmd; [congruence | reflexivity].
Qed.

(** The statement of [scan_token_nested_last_key] for a whole line. *)
Lemma parse_command_nested_line (items : list (string * string))
    (cmd : string) (ps : list piece) (p : piece) :
  cmd <> "" -> blank_free cmd = true -> mem "=" cmd = false ->
  ps <> [] -> forallb piece_ok (ps ++ [p]) = true ->
  blank_free (pipe_token (ps ++ [p])) = true ->
  parse_command items (cmd +:+ " " +:+ pipe_token (ps ++ [p]))
  = Ok (Parsed (Some cmd)
          {[ pc_key p := KList (map pc_value (ps ++ [p])) ]} []).
Proof.
  intros Hc Hbc Hec Hne Hok Hbt.
  assert (Hsplit : split "|" (pipe_token (ps ++ [p]))
                   = map piece_text (ps ++ [p]))
    by (apply split_pipe_token; [now destruct ps | assumption]).
  assert (Htok : pipe_token (ps ++ [p]) <> "").
  { intros E. rewrite E in Hsplit.
    destruct ps as [|q [|q' ps]]; [congruence | discriminate | discriminate]. }
  rewrite parse_command_two_tokens by assumption.
  unfold scan_token. rewrite Hsplit.
  replace (Nat.ltb 1 (length (map piece_text (ps ++ [p])))) with true
    by (destruct ps as [|q [|q' ps]]; [congruence | reflexivity | reflexivity]).
  rewrite (nested_loop_pieces ps p _ Hok). reflexivity.
Qed.

(** C3 at two lines the code does not survive: a doubled space leaves
    an empty token, whose first character the scan then reads; and a
    pipe-joined piece without [=] has no second field. *)
Theorem parse_command_raises (items : list (string * string)) :
  split " " (strip "error  id=0") = ["error"; ""; "id=0"] /\
  parse_command items "error  id=0" = Err IndexError /\
  parse_command items "clientlist a|b" = Err IndexError.
Proof. repeat split; reflexivity. Qed.

(** A value without a backslash is its own unescaped form. *)
Lemma unescape_plain (items : list (string * string)) (s : string) :
  Permutation items ts3_escape ->
  mem "\" s = false -> _unescape_str items (PyStr s) = s.
Proof.
  intros Hp Hs. unfold _unescape_str.
  change (bslash +:+ bslash) with (String "\"%char bslash).
  rewrite replace_absent by assumption.
  apply unescape_loop_id; [now apply order_from_table | assumption].
Qed.

(** C4 at the token [msg=a=b]: the token is split at every [=] and
    the second field alone is stored, so the value is [a], while the
    text after the first [=] is [a=b]. *)
Theorem parse_command_second_field (items : list (string * string)) :
  Permutation items ts3_escape ->
  parse_command items "error msg=a=b"
  = Ok (Parsed (Some "error") {[ "msg" := KStr "a" ]} []) /\
  _unescape_str items (PyStr "a=b") = "a=b".
Proof.
  intros Hp. split.
  - transitivity
      (Ok (Parsed (Some "error")
             {[ "msg" := KStr (_unescape_str items (PyStr "a")) ]} [])).
    + vm_compute. reflexivity.
    + now rewrite (unescape_plain items "a" Hp).
  - now apply unescape_plain.
Qed.

Lemma parse_command_second_field_witness :
  parse_command ts3_escape "error msg=a=b"
  = Ok (Parsed (Some "error") {[ "msg" := KStr "a" ]} []).
Proof.
  apply (parse_command_second_field ts3_escape). reflexivity.
Defined.

(** C5 at the token [name=a\sb|name=c]: the values of the pieces are
    stored as received; the escape token of the space is still there,
    although unescaping would turn it into a space. *)
Theorem parse_command_nested_raw (items : list (string * string)) :
  parse_command items "clientlist name=a\sb|name=c"
  = Ok (Parsed (Some "clientlist") {[ "name" := KList ["a\sb"; "c"] ]} []) /\
  map (fun v => _unescape_str ts3_escape (PyStr v)) ["a\sb"; "c"]
  = ["a b"; "c"].
Proof. split; vm_compute; reflexivity. Qed.

End Parsing.

(** ** Constructing a command *)

Module Constructing.
Import PyStr PyStrFacts Wire TS3Proto EscapeFacts.

Lemma fold_append {A} (f : A -> string) (l : list A) (acc : list string) :
  fold_left (fun acc x => acc ++ [f x]) l acc = acc ++ map f l.
Proof.
  revert acc. induction l as [|x l IH]; intros acc; simpl.
  - now rewrite List.app_nil_r.
  - rewrite IH, <- List.app_assoc. reflexivity.
Qed.

Lemma construct_key_token (items : list (string * string))
    (cstr : list string) (kv : string * cmdval) :
  construct_key items cstr kv = cstr ++ [key_token items kv].
Proof.
  unfold construct_key, key_token, fmt_pair.
  destruct (snd kv) as [v|l]; [reflexivity|].
  now rewrite (fold_append (fun nest => fst kv +:+ "=" +:+ _ nest)).
Qed.

Lemma fold_construct_key (items : list (string * string))
    (kvs : list (string * cmdval)) (cstr : list string) :
  fold_left (construct_key items) kvs cstr
  = cstr ++ map (key_token items) kvs.
Proof.
  revert cstr. induction kvs as [|kv kvs IH]; intros cstr; simpl.
  - now rewrite List.app_nil_r.
  - rewrite IH, construct_key_token, <- List.app_assoc. reflexivity.
Qed.

(** C6, as the code has it: the line [construct_command] returns is
    the name, then one token per key in the order in which the
    dictionary is iterated (the pieces of a list joined by pipes,
    [key=value] for a scalar), then one dash-prefixed token per option,
    joined by single spaces; the token of an empty list is the empty
    string.  For the login dictionary the line names the two keys in
    that order: the name first where the dictionary iterates it first,
    and the password first under the hash order of CPython 2.7. *)
Theorem construct_command_line (items : list (string * string))
    (command : string) (keys : option (list (string * cmdval)))
    (opts : option (list string)) :
  Permutation items ts3_escape ->
  construct_command items command keys opts
  = wire_line items command (default [] keys) (default [] opts) /\
  (forall cstr key, construct_key items cstr (key, Nested []) = cstr ++ [""]) /\
  construct_command items "login"
    (Some [("client_login_name", Scalar (PyStr "a"));
           ("client_login_password", Scalar (PyStr "b"))]) None
  = "login client_login_name=a client_login_password=b" /\
  option_map (fun kvs => construct_command items "login" (Some kvs) None)
    (Py27.dict_display [("client_login_name", Scalar (PyStr "a"));
                        ("client_login_password", Scalar (PyStr "b"))])
  = Some "login client_login_password=b client_login_name=a".
Proof.
  intros Hp.
  assert (G : forall c k o,
    construct_command items c k o
    = wire_line items c (default [] k) (default [] o)).
  { intros c k o. unfold construct_command, wire_line.
    destruct k as [[|kv kvs]|], o as [[|x xs]|]; cbn [default];
      rewrite ?fold_append, ?fold_construct_key; cbn [map];
      rewrite ?List.app_nil_r; cbn [app];
      rewrite <- ?List.app_assoc; reflexivity. }
  split; [apply G|]. split; [reflexivity|]. split.
  - rewrite G. unfold wire_line, key_token.
    cbn [default from_option id map snd fst app].
    rewrite !(escape_str_chars items Hp). reflexivity.
  - change (Py27.dict_display
              [("client_login_name", Scalar (PyStr "a"));
               ("client_login_password", Scalar (PyStr "b"))])
      with (Some [("client_login_password", Scalar (PyStr "b"));
                  ("client_login_name", Scalar (PyStr "a"))]).
    cbn [option_map]. rewrite G. unfold wire_line, key_token.
    cbn [default from_option id map snd fst app].
    rewrite !(escape_str_chars items Hp). reflexivity.
Qed.

Lemma construct_command_line_witness :
  construct_command ts3_escape "clientlist"
    (Some [("cid", Nested [PyInt 1; PyStr "a b"]); ("e", Nested [])])
    (Some ["uid"])
  = wire_line ts3_escape "clientlist"
      [("cid", Nested [PyInt 1; PyStr "a b"]); ("e", Nested [])] ["uid"].
Proof.
  apply (construct_command_line ts3_escape "clientlist"
           (Some [("cid", Nested [PyInt 1; PyStr "a b"]); ("e", Nested [])])
           (Some ["uid"])).
  reflexivity.
Defined.

(** C6 as stated does not hold: the dictionary of the login call is
    iterated with [client_login_password] first, so the line is not the
    one announced. *)
Lemma construct_command_login_order :
  Py27.string_hash "a" = 12416037344%Z /\
  Z.land (Py27.string_hash "client_login_name") 7 = 6%Z /\
  Z.land (Py27.string_hash "client_login_password") 7 = 4%Z /\
  Py27.dict_display [("client_login_name", Scalar (PyStr "a"));
                     ("client_login_password", Scalar (PyStr "b"))]
  = Some [("client_login_password", Scalar (PyStr "b"));
          ("client_login_name", Scalar (PyStr "a"))] /\
  construct_command ts3_escape "login"
    (Some [("client_login_password", Scalar (PyStr "b"));
           ("client_login_name", Scalar (PyStr "a"))]) None
  = "login client_login_password=b client_login_name=a" /\
  construct_command ts3_escape "login"
    (Some [("client_login_password", Scalar (PyStr "b"));
           ("client_login_name", Scalar (PyStr "a"))]) None
  <> "login client_login_name=a client_login_password=b".
Proof.
  repeat split; try (vm_compute; reflexivity). vm_compute. discriminate.
Qed.

End Constructing.

(** ** The session *)

Module SessionFacts.
Import PyStr PyStrFacts Wire TS3Proto EscapeFacts.

(** Unfolds the monad down to the session and the world. *)
Ltac run_io :=
  cbv [send bind get log write act sockfile ret raise modify readline
       read_response status_id].

(** C7: with [_connected] false, [send] returns without writing,
    without raising and without touching the session or the world;
    with [_connected] true (and the stream every connected session
    has), it appends exactly the payload to what was written and
    leaves the session as it was. *)
Theorem send_guard (payload : string) (st : session) (w : world) :
  (_connected st = false -> send payload st w = (Return tt, st, w)) /\
  (_connected st = true -> session_ok st = true ->
   send payload st w = (Return tt, st, written payload w) /\
   sent (written payload w) = sent w ++ [payload] /\
   incoming (written payload w) = incoming w).
Proof.
  unfold session_ok. run_io. split; intros Hc; rewrite Hc.
  - reflexivity.
  - destruct (_sockfile st) eqn:E; try discriminate.
    intros _. repeat split.
Qed.

Lemma send_guard_witness :
  send "quit" new_session (World None ["x"] false [] false [])
  = (Return tt, new_session, World None ["x"] false [] false []) /\
  sent (snd (send "quit"
               (Session 0 0 true (Obj (Socket "h" 10011))
                        (Obj (Socket "h" 10011)))
               (World None ["x"] false ["use 1"] false [])))
  = ["use 1"; "quit"].
Proof.
  split.
  - apply (send_guard "quit" new_session (World None ["x"] false [] false [])).
    reflexivity.
  - destruct (send_guard "quit"
                (Session 0 0 true (Obj (Socket "h" 10011))
                         (Obj (Socket "h" 10011)))
                (World None ["x"] false ["use 1"] false [])) as [_ H].
    destruct (H eq_refl eq_refl) as [-> _]. reflexivity.
Defined.

(** The stream is there whenever the session is marked connected:
    true of a new session and kept by every operation. *)
Lemma new_session_ok : session_ok new_session = true.
Proof. reflexivity. Qed.

Lemma connect_session_ok (ip : string) (port : Z) (st : session) (w : world) :
  session_ok st = true ->
  session_ok (snd (fst (connect ip port st w))) = true.
Proof.
  unfold connect, session_ok. run_io.
  destruct (refuse w); [trivial|]. cbn [_sockfile].
  destruct (incoming w) as [|l rest]; [destruct (eof w)|];
    try destruct (String.eqb _ _); cbn; trivial;
    destruct (_connected st); trivial.
Qed.

Lemma bind_session {A B} (m : io A) (k : A -> io B) :
  (forall st w, snd (fst (m st w)) = st) ->
  (forall a st w, snd (fst (k a st w)) = st) ->
  forall st w, snd (fst (bind m k st w)) = st.
Proof.
  intros Hm Hk st w. unfold bind. specialize (Hm st w).
  destruct (m st w) as [[[a| |] st'] w']; cbn in Hm; subst st';
    [apply Hk | reflexivity | reflexivity].
Qed.

Lemma send_session (payload : string) (st : session) (w : world) :
  snd (fst (send payload st w)) = st.
Proof.
  run_io. destruct (_connected st); [|reflexivity].
  destruct (_sockfile st); reflexivity.
Qed.

Lemma read_response_session (items : list (string * string))
    (st : session) (w : world) :
  snd (fst (read_response items st w)) = st.
Proof.
  run_io. destruct (_sockfile st); try reflexivity.
  destruct (read_loop items (incoming w) []); reflexivity.
Qed.

Lemma status_id_session (resp : parsed) (st : session) (w : world) :
  snd (fst (status_id resp st w)) = st.
Proof. unfold status_id. destruct (_ !! _); reflexivity. Qed.

(** [send_command] reads and writes the world only. *)
Lemma send_command_session (items : list (string * string))
    (command : string) (keys : option (list (string * cmdval)))
    (opts : option (list string)) (st : session) (w : world) :
  snd (fst (send_command items command keys opts st w)) = st.
Proof.
  unfold send_command.
  apply bind_session; [intros; apply send_session|]. intros _.
  apply bind_session; [intros; apply read_response_session|].
  intros [resp rows] st' w'.
  destruct (bool_decide _); [|reflexivity].
  destruct rows.
  - apply bind_session; [intros; apply status_id_session | reflexivity].
  - apply bind_session; [intros; apply status_id_session|].
    intros id ? ?. destruct (bool_decide _); [reflexivity|].
    apply bind_session; [intros; apply status_id_session | reflexivity].
Qed.

Lemma disconnect_session_ok (items : list (string * string))
    (st : session) (w : world) :
  session_ok st = true ->
  session_ok (snd (fst (disconnect items st w))) = true.
Proof.
  intros Hok. unfold disconnect. unfold bind at 1.
  pose proof (send_command_session items "quit" None None st w) as Hs.
  destruct (send_command items "quit" None None st w) as [[[r| |] st'] w'];
    cbn [fst snd] in Hs; subst st'; cbn [fst snd]; try assumption.
  run_io. destruct (_sock st); cbn [fst snd]; try assumption. reflexivity.
Qed.

(** C8, as the code has it: when the TCP connect fails, [connect]
    lets the error of the socket layer through as it is, and the
    session, its connected flag included, is as before the call. *)
Theorem connect_refused (ip : string) (port : Z) (st : session)
    (w : world) (e : socket_error) :
  refuse w = Some e ->
  connect ip port st w = (Raise (SocketError e), st, w).
Proof. intros H. unfold connect. run_io. now rewrite H. Qed.

Lemma connect_refused_witness :
  connect "10.0.0.1" 10011 new_session
    (World (Some (SockErr 111)) [] false [] false [])
  = (Raise (SocketError (SockErr 111)), new_session,
     World (Some (SockErr 111)) [] false [] false []).
Proof.
  apply (connect_refused "10.0.0.1" 10011 new_session
           (World (Some (SockErr 111)) [] false [] false [])
           (SockErr 111)).
  reflexivity.
Defined.

(** C8 as stated does not hold: a refused connect does not surface as
    [ConnectionError] with the host and the port. *)
Lemma connect_refused_no_connection_error :
  fst (fst (connect "10.0.0.1" 10011 new_session
              (World (Some (SockErr 111)) [] false [] false [])))
  = Raise (SocketError (SockErr 111)) /\
  fst (fst (connect "10.0.0.1" 10011 new_session
              (World (Some (SockErr 111)) [] false [] false [])))
  <> Raise (ConnectionError "10.0.0.1" 10011).
Proof. split; [reflexivity | discriminate]. Qed.

(** The loop reads the data lines, keeps their keys in the order of
    arrival, stops at the first line with a command and leaves what
    follows unread. *)
Lemma read_loop_rows (items : list (string * string))
    (lines : list string) (rows : list (gmap string keyval))
    (last : string) (resp : parsed) (name : string) (rest : list string)
    (acc : list (gmap string keyval)) :
  Forall2 (data_line items) lines rows ->
  parse_command items last = Ok resp ->
  p_command resp = Some name ->
  read_loop items (lines ++ last :: rest) acc
  = (Return (resp, acc ++ rows), rest).
Proof.
  intros Hd Hl Hn. revert acc.
  induction Hd as [|l k lines rows [o Hk] Hd IH]; intros acc.
  - cbn [app read_loop]. rewrite Hl, Hn. now rewrite List.app_nil_r.
  - cbn [app read_loop]. rewrite Hk. cbn [p_command p_keys].
    rewrite IH, <- List.app_assoc. reflexivity.
Qed.

(** C2, as the code has it.  Let the peer deliver data lines with the
    keys [rows], then a line with the command [name] and the keys
    [ks].  The call returns, the session is unchanged, the line was
    written if the session is connected, and the lines after the status
    line stay unread.  When [name] is [error] the result is [rows] if
    [id] is ["0"] and [rows] is not empty, and the value of [id]
    otherwise; for any other [name] the call returns nothing. *)
Theorem send_command_reply (items : list (string * string))
    (command : string) (keys : option (list (string * cmdval)))
    (opts : option (list string)) (st : session) (w : world)
    (f : socket) (lines : list string) (rows : list (gmap string keyval))
    (last name : string) (ks : gmap string keyval) (id : keyval)
    (rest : list string) :
  _sockfile st = Obj f ->
  incoming w = lines ++ last :: rest ->
  Forall2 (data_line items) lines rows ->
  status_line items last name ks ->
  (name = "error" -> ks !! "id" = Some id) ->
  exists (r : reply) (w' : world),
    send_command items command keys opts st w = (Return r, st, w') /\
    incoming w' = rest /\
    sent w' = (if _connected st
               then sent w ++ [construct_command items command keys opts
                               +:+ String (chr 10) ""]
               else sent w) /\
    (name = "error" -> id = KStr "0" -> rows <> [] -> r = Rows rows) /\
    (name = "error" -> id = KStr "0" -> rows = [] -> r = Status id) /\
    (name = "error" -> id <> KStr "0" -> r = Status id) /\
    (name <> "error" -> r = NoReply).
Proof.
  intros Hf Hin Hd [o Hl] Hid.
  unfold send_command. run_io.
  assert (Hloop : forall w0, incoming w0 = incoming w ->
    read_loop items (incoming w0) []
    = (Return (Parsed (Some name) ks o, rows), rest)).
  { intros w0 ->. rewrite Hin.
    now rewrite (read_loop_rows items lines rows last
                   (Parsed (Some name) ks o) name rest []). }
  destruct (_connected st); cbv beta iota; rewrite !Hf; cbv beta iota;
    cbn [incoming]; rewrite Hloop by reflexivity;
    cbn [p_command p_keys sent incoming];
    (destruct (decide (name = "error")) as [->|Hne];
     [ rewrite bool_decide_eq_true_2 by reflexivity;
       rewrite (Hid eq_refl);
       destruct rows as [|row rows];
       [ eexists _, _; repeat split; try reflexivity; congruence
       | destruct (decide (id = KStr "0")) as [->|Hid0];
         [ rewrite bool_decide_eq_true_2 by reflexivity
         | rewrite bool_decide_eq_false_2 by assumption ];
         eexists _, _; repeat split; try reflexivity; congruence ]
     | rewrite bool_decide_eq_false_2 by congruence;
       eexists _, _; repeat split; try reflexivity; congruence ]).
Qed.

Lemma send_command_reply_witness :
  exists w' : world,
    send_command ts3_escape "serverlist" None None
      (Session 0 0 true (Obj (Socket "h" 10011)) (Obj (Socket "h" 10011)))
      (World None ["sid=1 name=a"; "sid=2"; "error id=0 msg=ok"; "later"]
             false [] false [])
    = (Return (Rows [ {[ "sid" := KStr "1"; "name" := KStr "a" ]};
                      {[ "sid" := KStr "2" ]} ]),
       Session 0 0 true (Obj (Socket "h" 10011)) (Obj (Socket "h" 10011)),
       w') /\
    incoming w' = ["later"].
Proof.
  destruct (send_command_reply ts3_escape "serverlist" None None
           (Session 0 0 true (Obj (Socket "h" 10011)) (Obj (Socket "h" 10011)))
           (World None ["sid=1 name=a"; "sid=2"; "error id=0 msg=ok"; "later"]
                  false [] false [])
           (Socket "h" 10011)
           ["sid=1 name=a"; "sid=2"]
           [ {[ "sid" := KStr "1"; "name" := KStr "a" ]};
             {[ "sid" := KStr "2" ]} ]
           "error id=0 msg=ok" "error"
           {[ "id" := KStr "0"; "msg" := KStr "ok" ]} (KStr "0") ["later"])
    as (r & w' & Hrun & Hin & _ & Hrows & _).
  - reflexivity.
  - reflexivity.
  - repeat constructor; exists []; vm_compute; reflexivity.
  - exists []. vm_compute. reflexivity.
  - intros _. vm_compute. reflexivity.
  - exists w'. rewrite <- (Hrows eq_refl eq_refl); [|discriminate].
    split; [exact Hrun | exact Hin].
Defined.

(** C2 as stated does not hold: the line that ends the cycle may carry
    a command other than [error]; the call then returns nothing, not
    the value of [id]. *)
Lemma send_command_other_command :
  status_line ts3_escape "ok id=1" "ok" {[ "id" := KStr "1" ]} /\
  fst (fst (send_command ts3_escape "version" None None
              (Session 0 0 true (Obj (Socket "h" 10011))
                       (Obj (Socket "h" 10011)))
              (World None ["ok id=1"] false [] false [])))
  = Return NoReply /\
  fst (fst (send_command ts3_escape "version" None None
              (Session 0 0 true (Obj (Socket "h" 10011))
                       (Obj (Socket "h" 10011)))
              (World None ["ok id=1"] false [] false [])))
  <> Return (Status (KStr "1")).
Proof.
  split; [exists []; vm_compute; reflexivity|].
  split; [vm_compute; reflexivity|].
  vm_compute. discriminate.
Qed.

End SessionFacts.


(** ** Escaping and unescaping: round trips *)

Module RoundTrip.
Import PyStr PyStrFacts Wire Forms TS3Proto EscapeFacts.

Lemma table_tokens_two :
  forallb (fun ij =>
    String.eqb (snd ij) (String "\" (String (tok_letter (snd ij)) ""))
    && negb (eqc "\" (tok_letter (snd ij)))) ts3_escape = true.
Proof. reflexivity. Qed.

Lemma table_tokens_distinct :
  forallb (fun e1 =>
    forallb (fun e2 =>
      String.eqb (fst e1) (fst e2)
      || negb (eqc (tok_letter (snd e1)) (tok_letter (snd e2))))
      ts3_escape) ts3_escape = true.
Proof. reflexivity. Qed.

Lemma table_functional (e1 e2 : string * string) :
  In e1 ts3_escape -> In e2 ts3_escape -> fst e1 = fst e2 -> snd e1 = snd e2.
Proof.
  intros H1 H2 Hk.
  assert (T : forallb (fun a => forallb (fun b =>
                negb (String.eqb (fst a) (fst b))
                || String.eqb (snd a) (snd b)) ts3_escape) ts3_escape = true)
    by reflexivity.
  rewrite forallb_forall in T. specialize (T e1 H1).
  rewrite forallb_forall in T. specialize (T e2 H2).
  apply orb_true_iff in T as [T|T].
  - apply negb_true_iff, String.eqb_neq in T. congruence.
  - now apply String.eqb_eq.
Qed.

Lemma token_two (ij : string * string) :
  In ij ts3_escape ->
  snd ij = String "\" (String (tok_letter (snd ij)) "") /\
  eqc "\" (tok_letter (snd ij)) = false.
Proof.
  intros H. pose proof table_tokens_two as T.
  rewrite forallb_forall in T. specialize (T ij H).
  apply andb_true_iff in T as [T1 T2].
  split; [now apply String.eqb_eq | now apply negb_true_iff].
Qed.

Lemma token_distinct (e1 e2 : string * string) :
  In e1 ts3_escape -> In e2 ts3_escape -> fst e1 <> fst e2 ->
  eqc (tok_letter (snd e1)) (tok_letter (snd e2)) = false.
Proof.
  intros H1 H2 Hne. pose proof table_tokens_distinct as T.
  rewrite forallb_forall in T. specialize (T e1 H1).
  rewrite forallb_forall in T. specialize (T e2 H2).
  apply orb_true_iff in T as [T|T].
  - now apply String.eqb_eq in T.
  - now apply negb_true_iff.
Qed.

(** *** One pass of [replace] with a backslash-letter pattern *)

Section Pass.

Variables (z : ascii) (new : string).

Lemma pass_lit (x : ascii) (w : string) :
  eqc "\" x = false ->
  replace (String "\" (String z "")) new (String x w)
  = String x (replace (String "\" (String z "")) new w).
Proof.
  intros H. unfold replace. cbn [replace_from startswith]. now rewrite H.
Qed.

Lemma pass_hit (w : string) :
  replace (String "\" (String z "")) new (String "\" (String z w))
  = new +:+ replace (String "\" (String z "")) new w.
Proof.
  unfold replace. cbn [replace_from startswith String.length Nat.sub].
  now rewrite !eqc_refl.
Qed.

Lemma pass_miss (y : ascii) (w : string) :
  eqc z y = false -> eqc "\" y = false ->
  replace (String "\" (String z "")) new (String "\" (String y w))
  = String "\" (String y (replace (String "\" (String z "")) new w)).
Proof.
  intros Hz Hy. unfold replace. cbn [replace_from startswith].
  now rewrite eqc_refl, Hz, Hy.
Qed.

End Pass.

(** *** Partly escaped forms *)

Lemma token_in_cons (j : string * string) (rest : list (string * string))
    (x : ascii) :
  token_in (j :: rest) x
  = if String.eqb (fst j) (String x "") then snd j else token_in rest x.
Proof.
  unfold token_in. cbn [find]. now destruct (String.eqb _ _).
Qed.

Lemma token_in_absent (pairs : list (string * string)) (x : ascii) :
  ~ In (String x "") (map fst pairs) -> token_in pairs x = String x "".
Proof.
  intros H. unfold token_in.
  destruct (find _ pairs) as [e|] eqn:F; [|reflexivity].
  apply find_some in F as [Hin Hk]. apply String.eqb_eq in Hk.
  exfalso. apply H. rewrite <- Hk. now apply in_map.
Qed.

Lemma token_in_cases (pairs : list (string * string)) (x : ascii) :
  (exists e, In e pairs /\ fst e = String x "" /\ token_in pairs x = snd e)
  \/ token_in pairs x = String x "".
Proof.
  unfold token_in. destruct (find _ pairs) as [e|] eqn:F; [left | now right].
  apply find_some in F as [Hin Hk]. apply String.eqb_eq in Hk.
  exists e. now repeat split.
Qed.

Lemma escape_with_nil (s : string) : escape_with [] s = s.
Proof.
  induction s as [|x s IH]; [reflexivity|].
  cbn [escape_with]. now rewrite IH.
Qed.

(** The pass for the pair [j], run on the form escaped with [j :: rest],
    gives the form escaped with [rest] alone. *)
Lemma pass_escaped (j : string * string) (rest : list (string * string))
    (s : string) :
  (forall e, In e (j :: rest) -> In e ts3_escape) ->
  NoDup (map fst (j :: rest)) ->
  mem "\" s = false ->
  replace (snd j) (fst j) (escape_with (j :: rest) s) = escape_with rest s.
Proof.
  intros Hsub Hnd Hs.
  assert (Hj : In j ts3_escape) by (apply Hsub; now left).
  destruct (token_two j Hj) as [Hjt Hjl].
  inversion Hnd as [|k ks Hk _]; subst.
  rewrite Hjt. induction s as [|x s IH]; [reflexivity|].
  remember (tok_letter (snd j)) as z eqn:Hz.
  cbn [mem] in Hs. apply orb_false_elim in Hs as [Hx Hs].
  assert (Hbx : eqc "\" x = false).
  { apply eqc_neq. intros <-. now rewrite eqc_refl in Hx. }
  cbn [escape_with]. rewrite token_in_cons.
  destruct (String.eqb_spec (fst j) (String x "")) as [E|E].
  - rewrite Hjt, !app_cons, app_nil_l, pass_hit, (IH Hs), E.
    rewrite token_in_absent; [reflexivity|].
    intros Hin. apply Hk. rewrite E. now apply list_elem_of_In.
  - destruct (token_in_cases rest x) as [(e & He & Hek & ->)| ->].
    + assert (Het : In e ts3_escape) by (apply Hsub; now right).
      destruct (token_two e Het) as [-> Hel].
      rewrite !app_cons, app_nil_l, pass_miss, (IH Hs); try assumption;
        [reflexivity|].
      rewrite Hz. apply token_distinct; try assumption. congruence.
    + rewrite !app_cons, app_nil_l, pass_lit, (IH Hs) by assumption.
      reflexivity.
Qed.

(** No form has two backslashes in a row. *)
Lemma collapse_escaped (pairs : list (string * string)) (s : string) :
  (forall e, In e pairs -> In e ts3_escape) ->
  mem "\" s = false ->
  replace (bslash +:+ bslash) bslash (escape_with pairs s)
  = escape_with pairs s.
Proof.
  intros Hsub Hs. change (bslash +:+ bslash) with (String "\" (String "\" "")).
  induction s as [|x s IH]; [reflexivity|].
  cbn [mem] in Hs. apply orb_false_elim in Hs as [Hx Hs].
  assert (Hbx : eqc "\" x = false).
  { apply eqc_neq. intros <-. now rewrite eqc_refl in Hx. }
  cbn [escape_with].
  destruct (token_in_cases pairs x) as [(e & He & Hek & ->)| ->].
  - destruct (token_two e (Hsub e He)) as [-> Hel].
    now rewrite !app_cons, app_nil_l, pass_miss, (IH Hs).
  - now rewrite !app_cons, app_nil_l, pass_lit, (IH Hs).
Qed.

Lemma unescape_loop_escaped (pairs : list (string * string)) (s : string) :
  (forall e, In e pairs -> In e ts3_escape) ->
  NoDup (map fst pairs) ->
  mem "\" s = false ->
  unescape_loop pairs (escape_with pairs s) = s.
Proof.
  intros Hsub Hnd Hs. induction pairs as [|j rest IH].
  - apply escape_with_nil.
  - change (unescape_loop (j :: rest) (escape_with (j :: rest) s))
      with (unescape_loop rest
              (replace (snd j) (fst j) (escape_with (j :: rest) s))).
    rewrite pass_escaped by assumption.
    inversion Hnd; subst. apply IH; [|assumption].
    intros; apply Hsub; now right.
Qed.

Section Order.

Variable items : list (string * string).
Hypothesis order : Permutation items ts3_escape.

Lemma token_in_escape_char (x : ascii) :
  eqc "\" x = false -> token_in items x = escape_char x.
Proof.
  intros Hx. unfold escape_char. rewrite Hx. unfold table_lookup.
  destruct (find _ ts3_escape) as [e|] eqn:F; cbn.
  - apply find_some in F as [Hin Hk]. apply String.eqb_eq in Hk.
    destruct (token_in_cases items x) as [(e' & He' & Hk' & ->)|Habs].
    + apply (order_from_table items order) in He'.
      apply (table_functional e' e He' Hin). congruence.
    + exfalso. apply (order_to_items items order) in Hin.
      unfold token_in in Habs.
      destruct (find _ items) as [e'|] eqn:G.
      * apply find_some in G as [He' Hk'].
        apply (order_from_table items order), token_two in He' as [Ht _].
        cbn in Habs. rewrite Ht in Habs. discriminate Habs.
      * pose proof (find_none _ _ G e Hin) as N. cbn in N.
        rewrite Hk in N. now rewrite String.eqb_refl in N.
  - apply token_in_absent. intros Hin.
    apply in_map_iff in Hin as [e [Hk He]].
    apply (order_from_table items order) in He.
    pose proof (find_none _ _ F e He) as N. cbn in N.
    rewrite Hk in N. now rewrite String.eqb_refl in N.
Qed.

Lemma escape_with_items (s : string) :
  mem "\" s = false -> escape_with items s = escape_chars s.
Proof.
  induction s as [|x s IH]; [reflexivity|]. cbn [mem]. intros H.
  apply orb_false_elim in H as [Hx Hs].
  cbn [escape_with escape_chars]. rewrite (IH Hs), token_in_escape_char;
    [reflexivity|].
  apply eqc_neq. intros <-. now rewrite eqc_refl in Hx.
Qed.

End Order.

Lemma escape_chars_app (a b : string) :
  escape_chars (a +:+ b) = escape_chars a +:+ escape_chars b.
Proof.
  induction a as [|x a IH]; [reflexivity|].
  rewrite app_cons. cbn [escape_chars]. now rewrite IH, app_assoc.
Qed.

Lemma digits_chars (c : ascii) (d : Decimal.uint) :
  mem c (NilEmpty.string_of_uint d) = true -> mem c "0123456789" = true.
Proof.
  induction d; cbn [NilEmpty.string_of_uint]; intros H;
    try discriminate H;
    cbn [mem] in H; apply orb_true_iff in H as [H|H];
    try (apply eqc_true in H; subst c; reflexivity);
    now apply IHd.
Qed.

(** ["%d" % n] is made of digits and at most a minus sign. *)
Lemma fmt_d_chars (c : ascii) (n : Z) :
  mem c (fmt_d n) = true -> mem c "-0123456789" = true.
Proof.
  assert (Hu : forall u, mem c (NilZero.string_of_uint u) = true ->
                         mem c "0123456789" = true).
  { intros u. unfold NilZero.string_of_uint.
    destruct u; try apply digits_chars.
    cbn [mem]. intros H. apply orb_true_iff in H as [H|H]; [|discriminate].
    apply eqc_true in H. now subst c. }
  unfold fmt_d, NilZero.string_of_int.
  destruct (Z.to_int n) as [d|d]; intros H.
  - apply Hu in H. cbn [mem]. rewrite orb_true_iff. now right.
  - cbn [mem] in H. apply orb_true_iff in H as [H|H].
    + apply eqc_true in H. now subst c.
    + apply Hu in H. cbn [mem]. rewrite orb_true_iff. now right.
Qed.

Lemma fmt_d_lacks (c : ascii) (n : Z) :
  mem c "-0123456789" = false -> mem c (fmt_d n) = false.
Proof.
  intros H. destruct (mem c (fmt_d n)) eqn:E; [|reflexivity].
  apply fmt_d_chars in E. congruence.
Qed.

(** X1: the result of [_escape_str] does not depend on the order in
    which the escape table is iterated. *)
Theorem escape_str_any_order (items1 items2 : list (string * string))
    (value : pyval) :
  Permutation items1 ts3_escape ->
  Permutation items2 ts3_escape ->
  _escape_str items1 value = _escape_str items2 value.
Proof.
  intros H1 H2. destruct value as [n|s]; [reflexivity|].
  now rewrite (escape_str_chars items1 H1), (escape_str_chars items2 H2).
Qed.

Lemma escape_str_any_order_witness :
  _escape_str (rev ts3_escape) (PyStr "a/b c\d")
  = _escape_str ts3_escape (PyStr "a/b c\d").
Proof.
  apply (escape_str_any_order (rev ts3_escape) ts3_escape (PyStr "a/b c\d")).
  - symmetry. apply Permutation_rev.
  - reflexivity.
Defined.

(** X2: escaping works character by character: the escaped form of a
    concatenation is the concatenation of the escaped forms. *)
Theorem escape_str_app (items : list (string * string)) (a b : string) :
  Permutation items ts3_escape ->
  _escape_str items (PyStr (a +:+ b))
  = _escape_str items (PyStr a) +:+ _escape_str items (PyStr b).
Proof.
  intros Hp. rewrite !(escape_str_chars items Hp). apply escape_chars_app.
Qed.

Lemma escape_str_app_witness :
  _escape_str ts3_escape (PyStr ("a b\" +:+ "s|c"))
  = _escape_str ts3_escape (PyStr "a b\")
    +:+ _escape_str ts3_escape (PyStr "s|c").
Proof.
  apply (escape_str_app ts3_escape "a b\" "s|c"). reflexivity.
Defined.

(** X3: on a string without backslash, [_unescape_str] undoes
    [_escape_str], whatever the iteration order of the table. *)
Theorem unescape_escape_no_bslash (items : list (string * string))
    (s : string) :
  Permutation items ts3_escape ->
  mem "\" s = false ->
  _unescape_str items (PyStr (_escape_str items (PyStr s))) = s.
Proof.
  intros Hp Hs.
  rewrite (escape_str_chars items Hp), <- (escape_with_items items Hp s Hs).
  unfold _unescape_str.
  rewrite collapse_escaped by (try assumption; now apply order_from_table).
  apply unescape_loop_escaped;
    [now apply order_from_table | now apply order_nodup | assumption].
Qed.

Lemma unescape_escape_no_bslash_witness :
  _unescape_str ts3_escape
    (PyStr (_escape_str ts3_escape (PyStr "say hi/bye | ok")))
  = "say hi/bye | ok".
Proof.
  apply (unescape_escape_no_bslash ts3_escape "say hi/bye | ok");
    reflexivity.
Defined.

(** *** The decimal rendering *)

Lemma digits_value_acc (d : Decimal.uint) (acc : positive) :
  digits_value (Z.pos acc) (NilEmpty.string_of_uint d)
  = Some (Z.pos (Pos.of_uint_acc d acc)).
Proof.
  revert acc. induction d; intros acc; cbn [NilEmpty.string_of_uint];
    [reflexivity|..];
    cbn [digits_value Pos.of_uint_acc];
    match goal with
    | |- context [digit_value ?c] =>
        change (digit_value c) with (Some (Z.of_nat (nat_of_ascii c) - 48)%Z)
    end;
    cbv beta iota; rewrite <- IHd; f_equal;
    match goal with
    | |- context [Z.of_nat (nat_of_ascii ?c)] =>
        let v := eval vm_compute in (Z.of_nat (nat_of_ascii c)) in
        change (Z.of_nat (nat_of_ascii c)) with v
    end; lia.
Qed.

Lemma digits_value_uint (d : Decimal.uint) :
  digits_value 0 (NilEmpty.string_of_uint d) = Some (Z.of_N (Pos.of_uint d)).
Proof.
  induction d; cbn [NilEmpty.string_of_uint]; [reflexivity|..];
    cbn [digits_value Pos.of_uint];
    match goal with
    | |- context [digit_value ?c] =>
        change (digit_value c) with (Some (Z.of_nat (nat_of_ascii c) - 48)%Z)
    end;
    cbv beta iota;
    [exact IHd | apply (digits_value_acc d)..].
Qed.

(** The digits of a positive number: at least one, the first not a
    zero, denoting the number. *)
Lemma pos_digits (p : positive) :
  leading_digits (NilEmpty.string_of_uint (Pos.to_uint p)) = true /\
  digits_value 0 (NilEmpty.string_of_uint (Pos.to_uint p)) = Some (Z.pos p) /\
  NilZero.string_of_uint (Pos.to_uint p)
  = NilEmpty.string_of_uint (Pos.to_uint p).
Proof.
  assert (Hv : digits_value 0 (NilEmpty.string_of_uint (Pos.to_uint p))
               = Some (Z.pos p))
    by now rewrite digits_value_uint, DecimalPos.Unsigned.of_to.
  assert (Hn : Decimal.nzhead (Pos.to_uint p) = Pos.to_uint p).
  { pose proof (DecimalPos.Unsigned.to_of (Pos.to_uint p)) as H.
    rewrite DecimalPos.Unsigned.of_to in H. cbn [N.to_uint] in H.
    pose proof (DecimalPos.Unsigned.to_uint_nonzero p) as Hz.
    unfold Decimal.unorm in H.
    destruct (Decimal.nzhead (Pos.to_uint p)) eqn:E; congruence. }
  pose proof (DecimalFacts.nzhead_nonzero (Pos.to_uint p)) as Hd.
  pose proof (DecimalPos.Unsigned.to_uint_nonnil p) as Hnil.
  rewrite Hn in Hd. unfold leading_digits.
  destruct (Pos.to_uint p) as [|u|u|u|u|u|u|u|u|u|u] eqn:E;
    [congruence | exfalso; now apply (Hd u) | ..];
    cbn [NilEmpty.string_of_uint NilZero.string_of_uint] in *;
    rewrite Hv; repeat split.
Qed.

(** X4: the escaped form of an [int] is the number written in decimal:
    it is the canonical numeral ([0], or digits not starting with a
    zero, after one minus sign for a negative number), reading it gives
    the number back, it holds nothing but digits and that sign, and
    unescaping leaves it as it is. *)
Theorem escape_int_decimal (items : list (string * string)) (n : Z) :
  Permutation items ts3_escape ->
  canonical_decimal (_escape_str items (PyInt n)) = true /\
  decimal_value (_escape_str items (PyInt n)) = Some n /\
  (forall c, mem c (_escape_str items (PyInt n)) = true ->
             mem c "-0123456789" = true) /\
  _unescape_str items (PyStr (_escape_str items (PyInt n)))
  = _escape_str items (PyInt n).
Proof.
  intros Hp.
  assert (Hshape : canonical_decimal (fmt_d n) = true /\
                   decimal_value (fmt_d n) = Some n).
  { unfold fmt_d, NilZero.string_of_int, Z.to_int. destruct n as [|p|p].
    - split; reflexivity.
    - destruct (pos_digits p) as (Hl & Hv & ->).
      unfold canonical_decimal, decimal_value, leading_digits in *.
      destruct (NilEmpty.string_of_uint (Pos.to_uint p)) as [|c ds] eqn:E;
        [discriminate Hl|].
      assert (Hc : eqc c "-" = false).
      { destruct (eqc c "-") eqn:Ec; [|reflexivity].
        apply eqc_true in Ec. subst c. cbn in Hv. discriminate Hv. }
      rewrite Hc, Hl, Hv. now rewrite orb_true_r.
    - destruct (pos_digits p) as (Hl & Hv & ->).
      unfold canonical_decimal, decimal_value.
      cbn [eqc Ascii.eqb Bool.eqb String.eqb]. rewrite Hl, Hv.
      destruct (NilEmpty.string_of_uint (Pos.to_uint p)) eqn:E;
        [discriminate Hl|]. split; [apply orb_true_r | reflexivity]. }
  destruct Hshape as [Hcan Hval].
  split; [exact Hcan|]. split; [exact Hval|]. split.
  - intros c. apply fmt_d_chars.
  - unfold _unescape_str. cbn [_escape_str].
    change (bslash +:+ bslash) with (String "\"%char bslash).
    rewrite replace_absent by now apply fmt_d_lacks.
    apply unescape_loop_id; [now apply order_from_table|].
    now apply fmt_d_lacks.
Qed.

Lemma escape_int_decimal_witness :
  _escape_str ts3_escape (PyInt (-42)) = "-42" /\
  canonical_decimal (_escape_str ts3_escape (PyInt (-42))) = true /\
  decimal_value (_escape_str ts3_escape (PyInt (-42))) = Some (-42)%Z.
Proof.
  split; [reflexivity|].
  destruct (escape_int_decimal ts3_escape (-42)) as (Hc & Hv & _).
  - reflexivity.
  - split; [exact Hc | exact Hv].
Defined.

End RoundTrip.


(** ** Parsing: errors, blanks and the way back from a constructed line *)

Module ParseFacts.
Import PyStr PyStrFacts Wire Forms TS3Proto EscapeFacts.

(** *** The only exception *)

Lemma getitem_err {A} (l : list A) (i : nat) (e : exn) :
  getitem l i = Err e -> e = IndexError.
Proof. unfold getitem. destruct (l !! i); [discriminate | congruence]. Qed.

Lemma nested_step_cases (st : option string * list string) (nkey : string) :
  (exists k v, nested_step st nkey = Ok (Some k, snd st ++ [v]))
  \/ nested_step st nkey = Err IndexError.
Proof.
  unfold nested_step.
  destruct (getitem (split "=" nkey) 0) as [k|e] eqn:E0; cbn [rbind].
  - destruct (getitem (split "=" nkey) 1) as [v|e] eqn:E1; cbn [rbind].
    + left. now exists k, v.
    + right. now rewrite (getitem_err _ _ _ E1).
  - right. now rewrite (getitem_err _ _ _ E0).
Qed.

Lemma nested_loop_cases (nkeys : list string)
    (st : option string * list string) :
  (exists r, nested_loop nkeys st = Ok r /\
             (nkeys = [] /\ r = st \/ is_Some (fst r)))
  \/ nested_loop nkeys st = Err IndexError.
Proof.
  revert st. induction nkeys as [|nkey rest IH]; intros st.
  - left. exists st. split; [reflexivity | now left].
  - cbn [nested_loop].
    destruct (nested_step_cases st nkey) as [(k & v & ->)| ->]; cbn [rbind];
      [|now right].
    destruct (IH (Some k, snd st ++ [v])) as [(r & Hr & Hc)|Herr].
    + left. exists r. split; [exact Hr|]. right.
      destruct Hc as [[_ ->]|Hs]; [now eexists | exact Hs].
    + now right.
Qed.

Lemma scan_token_err (items : list (string * string))
    (st : gmap string keyval * list string) (key : string) (e : exn) :
  scan_token items st key = Err e -> e = IndexError.
Proof.
  unfold scan_token. destruct st as [keys opts].
  destruct (Nat.ltb 1 (length (split "|" key))).
  - pose proof (split_nonempty "|" key) as Hne.
    destruct (nested_loop_cases (split "|" key) (None, []))
      as [(r & -> & Hc)| ->]; cbn [rbind]; [|congruence].
    destruct Hc as [[Hnil _]|[k Hk]]; [congruence|].
    rewrite Hk. discriminate.
  - destruct (Nat.ltb 1 (length (split "=" key))).
    + destruct (getitem (split "=" key) 0) as [k|e0] eqn:E0; cbn [rbind];
        [|intros [= <-]; now apply getitem_err in E0].
      destruct (getitem (split "=" key) 1) as [v|e1] eqn:E1; cbn [rbind];
        [discriminate | intros [= <-]; now apply getitem_err in E1].
    + destruct key as [|c rest]; [congruence|].
      destruct (eqc c "-"); discriminate.
Qed.

Lemma scan_tokens_err (items : list (string * string)) (toks : list string)
    (st : gmap string keyval * list string) (e : exn) :
  scan_tokens items toks st = Err e -> e = IndexError.
Proof.
  revert st. induction toks as [|key rest IH]; intros st; [discriminate|].
  cbn [scan_tokens].
  destruct (scan_token items st key) as [st'|e'] eqn:E; cbn [rbind].
  - apply IH.
  - intros [= <-]. now apply scan_token_err in E.
Qed.

(** X5: whatever the line, the only exception [parse_command] raises is
    [IndexError]. *)
Theorem parse_command_only_index_error (items : list (string * string))
    (commandstr : string) (e : exn) :
  parse_command items commandstr = Err e -> e = IndexError.
Proof.
  unfold parse_command, parse_tokens.
  destruct (getitem _ 0) as [command|e0] eqn:E0; cbn [rbind];
    [|intros [= <-]; now apply getitem_err in E0].
  destruct (Nat.ltb 1 (length (split "=" command)));
    match goal with
    | |- context [scan_tokens ?i ?t ?s] =>
        destruct (scan_tokens i t s) as [st|e1] eqn:E1
    end; cbn [rbind]; try discriminate;
    intros [= <-]; now apply scan_tokens_err in E1.
Qed.

Lemma parse_command_only_index_error_witness :
  parse_command ts3_escape "error  id=0" = Err IndexError /\
  IndexError = IndexError.
Proof.
  split; [reflexivity|].
  apply (parse_command_only_index_error ts3_escape "error  id=0" IndexError).
  reflexivity.
Defined.

(** *** Blanks *)

Lemma lstrip_all_blank (s : string) : all_blank s = true -> lstrip s = "".
Proof.
  induction s as [|c s IH]; [reflexivity|]. cbn [all_blank lstrip].
  intros H. apply andb_true_iff in H as [Hc Hs]. now rewrite Hc, IH.
Qed.

Lemma rstrip_all_blank (s : string) : all_blank s = true -> rstrip s = "".
Proof.
  induction s as [|c s IH]; [reflexivity|]. cbn [all_blank rstrip].
  intros H. apply andb_true_iff in H as [Hc Hs]. now rewrite IH, Hc.
Qed.

Lemma rstrip_app_blank (w b : string) :
  all_blank b = true -> rstrip (w +:+ b) = rstrip w.
Proof.
  intros Hb. induction w as [|c w IH].
  - rewrite app_nil_l. now apply rstrip_all_blank.
  - rewrite app_cons. cbn [rstrip]. now rewrite IH.
Qed.

Lemma lstrip_blank_app (a w : string) :
  all_blank a = true -> lstrip (a +:+ w) = lstrip w.
Proof.
  induction a as [|c a IH]; [reflexivity|]. cbn [all_blank].
  intros H. apply andb_true_iff in H as [Hc Ha].
  rewrite app_cons. cbn [lstrip]. now rewrite Hc, IH.
Qed.

Lemma strip_app_blank (l b : string) :
  all_blank b = true -> strip (l +:+ b) = strip l.
Proof.
  intros Hb. unfold strip. induction l as [|c l IH].
  - rewrite app_nil_l, lstrip_all_blank by assumption. reflexivity.
  - rewrite app_cons. cbn [lstrip]. destruct (isspace c); [exact IH|].
    rewrite <- app_cons. now apply rstrip_app_blank.
Qed.

(** X6: a line made of blanks only (the empty line, a bare line
    terminator) parses, without raising, to a data line with no key and
    no option. *)
Theorem parse_command_blank (items : list (string * string))
    (commandstr : string) :
  all_blank commandstr = true ->
  parse_command items commandstr = Ok (Parsed None ∅ []).
Proof.
  intros H. unfold parse_command, strip.
  now rewrite lstrip_all_blank, (rstrip_all_blank "").
Qed.

Lemma parse_command_blank_witness :
  parse_command ts3_escape (String (chr 10) (String (chr 13) ""))
  = Ok (Parsed None ∅ []).
Proof.
  apply (parse_command_blank ts3_escape (String (chr 10) (String (chr 13) ""))).
  reflexivity.
Defined.

(** X7: blanks before and after a line, its terminator included, do
    not change what it parses to. *)
Theorem parse_command_strips (items : list (string * string))
    (a l b : string) :
  all_blank a = true -> all_blank b = true ->
  parse_command items (a +:+ l +:+ b) = parse_command items l.
Proof.
  intros Ha Hb. unfold parse_command. f_equal. f_equal.
  rewrite <- app_assoc, strip_app_blank by assumption.
  unfold strip. now rewrite lstrip_blank_app.
Qed.

Lemma parse_command_strips_witness :
  parse_command ts3_escape
    (" " +:+ "error id=0 msg=ok" +:+ String (chr 10) (String (chr 13) ""))
  = parse_command ts3_escape "error id=0 msg=ok".
Proof.
  apply (parse_command_strips ts3_escape " " "error id=0 msg=ok"
           (String (chr 10) (String (chr 13) ""))); reflexivity.
Defined.

(** *** What an escaped scalar looks like *)

Lemma fmt_d_lacks_blank (n : Z) (c : ascii) :
  isspace c = true -> mem c (fmt_d n) = false.
Proof.
  intros Hc. apply RoundTrip.fmt_d_lacks.
  destruct (mem c "-0123456789") eqn:E; [|reflexivity].
  cbn [mem] in E. repeat rewrite orb_true_iff in E.
  repeat (destruct E as [E|E];
          [apply eqc_true in E; subst c; discriminate Hc|]).
  discriminate E.
Qed.

Lemma isspace_separator (c : ascii) :
  isspace c = true -> In c separators.
Proof.
  destruct c as [[] [] [] [] [] [] [] []]; intros H;
    try discriminate H; vm_compute; tauto.
Qed.

Lemma blank_free_intro (s : string) :
  (forall c, isspace c = true -> mem c s = false) -> blank_free s = true.
Proof.
  induction s as [|x s IH]; [reflexivity|]. intros H. cbn [blank_free].
  rewrite IH.
  - destruct (isspace x) eqn:E; [|reflexivity].
    specialize (H x E). cbn [mem] in H. now rewrite eqc_refl in H.
  - intros c Hc. specialize (H c Hc). cbn [mem] in H.
    now apply orb_false_elim in H.
Qed.

Lemma tokens_no_eq :
  forallb (fun ij => negb (mem "=" (snd ij))) ts3_escape = true.
Proof. reflexivity. Qed.

Lemma escape_chars_no_eq (s : string) :
  mem "=" s = false -> mem "=" (escape_chars s) = false.
Proof.
  induction s as [|x s IH]; [reflexivity|]. cbn [mem escape_chars].
  intros H. apply orb_false_elim in H as [Hx Hs].
  rewrite mem_app, (IH Hs), orb_false_r.
  unfold escape_char. destruct (eqc "\" x); [reflexivity|].
  unfold table_lookup. destruct (find _ ts3_escape) as [ij|] eqn:F; cbn.
  - apply find_some in F as [Hin _]. pose proof tokens_no_eq as T.
    rewrite forallb_forall in T. now apply negb_true_iff, T.
  - now rewrite Hx.
Qed.

Lemma escape_value_shape (items : list (string * string)) (v : pyval) :
  Permutation items ts3_escape ->
  plain_value v = true ->
  blank_free (_escape_str items v) = true /\
  mem "=" (_escape_str items v) = false /\
  mem "|" (_escape_str items v) = false.
Proof.
  intros Hp Hv. destruct v as [n|s].
  - cbn [_escape_str]. repeat split.
    + apply blank_free_intro. intros c Hc. apply fmt_d_lacks_blank, Hc.
    + now apply RoundTrip.fmt_d_lacks.
    + now apply RoundTrip.fmt_d_lacks.
  - rewrite (escape_str_chars items Hp). cbn [plain_value] in Hv.
    apply andb_true_iff in Hv as [He _]. apply negb_true_iff in He.
    repeat split.
    + apply blank_free_intro. intros c Hc.
      apply Escaping.escape_chars_no_separator, isspace_separator, Hc.
    + now apply escape_chars_no_eq.
    + apply Escaping.escape_chars_no_separator. cbn. tauto.
Qed.

Lemma roundtrip_value (items : list (string * string)) (v : pyval) :
  Permutation items ts3_escape ->
  plain_value v = true ->
  _unescape_str items (PyStr (_escape_str items v)) = str_of v.
Proof.
  intros Hp Hv. destruct v as [n|s].
  - cbn [_escape_str str_of].
    apply Parsing.unescape_plain; [assumption|].
    now apply RoundTrip.fmt_d_lacks.
  - cbn [plain_value] in Hv. apply andb_true_iff in Hv as [_ Hb].
    apply negb_true_iff in Hb. cbn [str_of].
    rewrite (escape_str_chars items Hp),
      <- (RoundTrip.escape_with_items items Hp s Hb).
    unfold _unescape_str.
    rewrite RoundTrip.collapse_escaped
      by (try assumption; now apply order_from_table).
    apply RoundTrip.unescape_loop_escaped;
      [now apply order_from_table | now apply order_nodup | assumption].
Qed.

(** *** Scanning the tokens [construct_command] writes *)

Lemma plain_word_parts (k : string) :
  plain_word k = true ->
  blank_free k = true /\ mem "=" k = false /\ mem "|" k = false.
Proof.
  unfold plain_word. intros H.
  apply andb_true_iff in H as [H Hp]. apply andb_true_iff in H as [Hb He].
  repeat split; [assumption | now apply negb_true_iff..].
Qed.

Lemma blank_free_app (a b : string) :
  blank_free (a +:+ b) = blank_free a && blank_free b.
Proof.
  induction a as [|c a IH]; [reflexivity|].
  rewrite app_cons. cbn [blank_free]. now rewrite IH, andb_assoc.
Qed.

(** A [key=value] token stores the scalar it was made from. *)
Lemma scan_token_pair (items : list (string * string)) (k : string)
    (v : pyval) (m : gmap string keyval) (o : list string) :
  Permutation items ts3_escape ->
  plain_word k = true -> plain_value v = true ->
  scan_token items (m, o) (fmt_pair items k v)
  = Ok (<[k := KStr (str_of v)]> m, o).
Proof.
  intros Hp Hk Hv.
  destruct (plain_word_parts k Hk) as (_ & Hke & Hkp).
  destruct (escape_value_shape items v Hp Hv) as (_ & Hve & Hvp).
  change (fmt_pair items k v) with (join "=" [k; _escape_str items v]).
  rewrite Parsing.scan_token_fields by (repeat constructor; assumption).
  now rewrite roundtrip_value.
Qed.

(** A dash token adds its option. *)
Lemma scan_token_dash (items : list (string * string)) (opt : string)
    (m : gmap string keyval) (o : list string) :
  plain_word opt = true ->
  scan_token items (m, o) ("-" +:+ opt) = Ok (m, o ++ [opt]).
Proof.
  intros Ho. destruct (plain_word_parts opt Ho) as (_ & He & Hp).
  change ("-" +:+ opt) with (String "-" opt). unfold scan_token.
  rewrite !length_split_plain by (cbn [mem]; assumption).
  reflexivity.
Qed.

Lemma scan_tokens_app (items : list (string * string)) (a b : list string)
    (st : gmap string keyval * list string) :
  scan_tokens items (a ++ b) st
  = rbind (scan_tokens items a st) (scan_tokens items b).
Proof.
  revert st. induction a as [|t a IH]; intros st; [reflexivity|].
  cbn [app scan_tokens].
  destruct (scan_token items st t); cbn [rbind]; [apply IH | reflexivity].
Qed.

Lemma scan_tokens_pairs (items : list (string * string))
    (kvs : list (string * pyval)) (m : gmap string keyval) (o : list string) :
  Permutation items ts3_escape ->
  forallb (fun kv => plain_word (fst kv) && plain_value (snd kv)) kvs = true ->
  scan_tokens items (map (fun kv => fmt_pair items (fst kv) (snd kv)) kvs)
              (m, o)
  = Ok (stored kvs m, o).
Proof.
  intros Hp. revert m. induction kvs as [|[k v] kvs IH]; intros m H;
    [reflexivity|].
  cbn [forallb fst snd] in H. apply andb_true_iff in H as [Hkv H].
  apply andb_true_iff in Hkv as [Hk Hv].
  cbn [map scan_tokens fst snd].
  rewrite scan_token_pair by assumption. cbn [rbind].
  rewrite (IH _ H). unfold stored. cbn [fold_left fst snd].
  now destruct v.
Qed.

Lemma scan_tokens_dashes (items : list (string * string))
    (opts : list string) (m : gmap string keyval) (o : list string) :
  forallb plain_word opts = true ->
  scan_tokens items (map (fun opt => "-" +:+ opt) opts) (m, o)
  = Ok (m, o ++ opts).
Proof.
  revert o. induction opts as [|opt opts IH]; intros o H.
  - now rewrite List.app_nil_r.
  - cbn [forallb] in H. apply andb_true_iff in H as [Ho H].
    cbn [map scan_tokens]. rewrite scan_token_dash by assumption.
    cbn [rbind]. rewrite (IH _ H), <- List.app_assoc. reflexivity.
Qed.

(** *** Lines of clean tokens *)

Lemma join_cons2 (sep x y : string) (l : list string) :
  join sep (x :: y :: l) = x +:+ sep +:+ join sep (y :: l).
Proof. reflexivity. Qed.

Lemma join_not_empty (sep x : string) (l : list string) :
  x <> "" -> join sep (x :: l) <> "".
Proof.
  intros Hx. destruct x as [|c x]; [congruence|].
  destruct l; [discriminate|]. rewrite join_cons2, app_cons. discriminate.
Qed.

Lemma strip_join (toks : list string) :
  toks <> [] ->
  Forall (fun t => t <> "" /\ blank_free t = true) toks ->
  strip (join " " toks) = join " " toks.
Proof.
  intros Hne Hall. unfold strip.
  assert (Hl : lstrip (join " " toks) = join " " toks).
  { destruct Hall as [|t l [Ht Hb] _]; [congruence|].
    destruct t as [|c t]; [congruence|].
    cbn [blank_free] in Hb. apply andb_true_iff in Hb as [Hc _].
    destruct l; [cbn [join]|rewrite join_cons2, app_cons]; cbn [lstrip];
      now destruct (isspace c). }
  rewrite Hl. clear Hl Hne.
  induction Hall as [|t l [Ht Hb] Hall IH]; [reflexivity|].
  destruct l as [|u l]; [now apply Parsing.rstrip_blank_free|].
  rewrite join_cons2, <- app_assoc.
  apply Parsing.rstrip_app; [|exact IH].
  inversion Hall as [|? ? [Hu _] _]; subst. now apply join_not_empty.
Qed.

Lemma parse_command_join (items : list (string * string))
    (toks : list string) :
  toks <> [] ->
  Forall (fun t => t <> "" /\ blank_free t = true) toks ->
  parse_command items (join " " toks) = parse_tokens items toks.
Proof.
  intros Hne Hall. unfold parse_command.
  rewrite strip_join by assumption.
  rewrite split_join; [reflexivity | assumption |].
  eapply Forall_impl; [exact Hall|].
  intros t [_ Hb]. now apply Parsing.blank_free_no_space.
Qed.

Lemma fmt_pair_clean (items : list (string * string)) (k : string)
    (v : pyval) :
  Permutation items ts3_escape ->
  plain_word k = true -> plain_value v = true ->
  fmt_pair items k v <> "" /\ blank_free (fmt_pair items k v) = true /\
  mem "=" (fmt_pair items k v) = true.
Proof.
  intros Hp Hk Hv.
  destruct (plain_word_parts k Hk) as (Hkb & _ & _).
  destruct (escape_value_shape items v Hp Hv) as (Hvb & _ & _).
  unfold fmt_pair. repeat split.
  - destruct k; discriminate.
  - now rewrite !blank_free_app, Hkb, Hvb.
  - rewrite !mem_app. cbn [mem]. rewrite eqc_refl.
    now rewrite orb_true_r.
Qed.

Lemma dash_clean (opt : string) :
  plain_word opt = true ->
  "-" +:+ opt <> "" /\ blank_free ("-" +:+ opt) = true.
Proof.
  intros Ho. destruct (plain_word_parts opt Ho) as (Hb & _ & _).
  split; [discriminate|]. now rewrite blank_free_app, Hb.
Qed.

Lemma construct_command_wire (items : list (string * string))
    (command : string) (keys : option (list (string * cmdval)))
    (opts : option (list string)) :
  construct_command items command keys opts
  = wire_line items command (default [] keys) (default [] opts).
Proof.
  unfold construct_command, wire_line.
  destruct keys as [[|kv kvs]|], opts as [[|x xs]|]; cbn [default from_option id];
    rewrite ?Constructing.fold_append, ?Constructing.fold_construct_key;
    cbn [map]; rewrite ?List.app_nil_r; cbn [app];
    rewrite <- ?List.app_assoc; reflexivity.
Qed.

(** X8: parsing the line [construct_command] builds from a command
    name, scalar keys and options gives back the name, every scalar
    under its key (a later pair with the same key wins) and the
    options in order, provided the names hold no blank, [=] or pipe and
    the values no [=] or backslash. *)
Theorem parse_construct_command (items : list (string * string))
    (command : string) (kvs : list (string * pyval)) (opts : list string) :
  Permutation items ts3_escape ->
  plain_name command = true ->
  forallb (fun kv => plain_word (fst kv) && plain_value (snd kv)) kvs = true ->
  forallb plain_word opts = true ->
  parse_command items
    (construct_command items command
       (Some (map (fun kv => (fst kv, Scalar (snd kv))) kvs)) (Some opts))
  = Ok (Parsed (Some command) (stored kvs ∅) opts).
Proof.
  intros Hp Hc Hk Ho.
  unfold plain_name in Hc. apply andb_true_iff in Hc as [Hc Hce].
  apply andb_true_iff in Hc as [Hcn Hcb].
  apply negb_true_iff, String.eqb_neq in Hcn. apply negb_true_iff in Hce.
  rewrite construct_command_wire. unfold wire_line.
  cbn [default from_option id]. rewrite map_map.
  change (fun x => key_token items (fst x, Scalar (snd x)))
    with (fun kv => fmt_pair items (fst kv) (snd kv)).
  rewrite parse_command_join.
  - unfold parse_tokens. cbn [getitem lookup list_lookup rbind].
    rewrite (length_split_plain _ _ Hce). cbn [drop]. rewrite drop_0.
    rewrite scan_tokens_app, scan_tokens_pairs by assumption. cbn [rbind].
    rewrite scan_tokens_dashes by assumption. cbn [rbind fst snd app].
    destruct command; [congruence | reflexivity].
  - discriminate.
  - constructor; [now split|]. apply Forall_app. split.
    + rewrite forallb_forall in Hk. apply List.Forall_forall.
      intros t Ht. apply in_map_iff in Ht as [[k v] [<- Hin]].
      specialize (Hk _ Hin). cbn [fst snd] in *.
      apply andb_true_iff in Hk as [Hkw Hkv].
      destruct (fmt_pair_clean items k v Hp Hkw Hkv) as (? & ? & _).
      now split.
    + rewrite forallb_forall in Ho. apply List.Forall_forall.
      intros t Ht. apply in_map_iff in Ht as [opt [<- Hin]].
      now apply dash_clean, Ho.
Qed.

Lemma parse_construct_command_witness :
  parse_command ts3_escape
    (construct_command ts3_escape "gm"
       (Some (map (fun kv => (fst kv, Scalar (snd kv)))
                [("msg", PyStr "hi all | bye/now"); ("sid", PyInt 3)]))
       (Some ["uid"]))
  = Ok (Parsed (Some "gm")
          (stored [("msg", PyStr "hi all | bye/now"); ("sid", PyInt 3)] ∅)
          ["uid"]).
Proof.
  apply (parse_construct_command ts3_escape "gm"
           [("msg", PyStr "hi all | bye/now"); ("sid", PyInt 3)] ["uid"]);
    reflexivity.
Defined.

(** X9: a line of [key=value] tokens with no command in front, written
    the way [construct_command] writes its keys, parses to a data
    line: no command, every scalar under its key, no option. *)
Theorem parse_data_line (items : list (string * string))
    (kv : string * pyval) (kvs : list (string * pyval)) :
  Permutation items ts3_escape ->
  forallb (fun kv => plain_word (fst kv) && plain_value (snd kv))
          (kv :: kvs) = true ->
  parse_command items
    (join " " (map (fun kv => fmt_pair items (fst kv) (snd kv)) (kv :: kvs)))
  = Ok (Parsed None (stored (kv :: kvs) ∅) []).
Proof.
  intros Hp Hk.
  assert (Hfirst : plain_word (fst kv) = true /\ plain_value (snd kv) = true).
  { cbn [forallb] in Hk. apply andb_true_iff in Hk as [Hk _].
    now apply andb_true_iff in Hk. }
  destruct Hfirst as [Hkw Hkv].
  destruct (fmt_pair_clean items (fst kv) (snd kv) Hp Hkw Hkv) as (_ & _ & He).
  rewrite parse_command_join.
  - unfold parse_tokens. cbn [map getitem lookup list_lookup rbind].
    rewrite (length_split_sep _ _ He). cbn [drop].
    change (fmt_pair items (fst kv) (snd kv)
            :: map (fun kv => fmt_pair items (fst kv) (snd kv)) kvs)
      with (map (fun kv => fmt_pair items (fst kv) (snd kv)) (kv :: kvs)).
    now rewrite scan_tokens_pairs.
  - discriminate.
  - rewrite forallb_forall in Hk. apply List.Forall_forall.
    intros t Ht. apply in_map_iff in Ht as [[k v] [<- Hin]].
    specialize (Hk _ Hin). cbn [fst snd] in *.
    apply andb_true_iff in Hk as [Hw Hv].
    destruct (fmt_pair_clean items k v Hp Hw Hv) as (? & ? & _).
    now split.
Qed.

Lemma parse_data_line_witness :
  parse_command ts3_escape
    (join " " (map (fun kv => fmt_pair ts3_escape (fst kv) (snd kv))
                 (("virtualserver_id", PyInt 1)
                  :: [("virtualserver_name", PyStr "My Server")])))
  = Ok (Parsed None
          (stored (("virtualserver_id", PyInt 1)
                   :: [("virtualserver_name", PyStr "My Server")]) ∅) []).
Proof.
  apply (parse_data_line ts3_escape ("virtualserver_id", PyInt 1)
           [("virtualserver_name", PyStr "My Server")]); reflexivity.
Defined.

End ParseFacts.

(** ** Pipe-joined tokens in a whole line *)

Module NestedFacts.
Import PyStr PyStrFacts Wire Forms TS3Proto EscapeFacts.

Lemma piece_text_has_eq (p : piece) : mem "=" (piece_text p) = true.
Proof.
  unfold piece_text, piece_fields.
  destruct (pc_more p); [cbn [join]|rewrite ParseFacts.join_cons2];
    rewrite !mem_app; cbn [mem]; rewrite eqc_refl;
    now rewrite orb_true_r.
Qed.

Lemma pipe_token_has_eq (ps : list piece) (p : piece) :
  mem "=" (pipe_token (p :: ps)) = true.
Proof.
  unfold pipe_token. cbn [map].
  destruct (map piece_text ps); [cbn [join]; apply piece_text_has_eq|].
  rewrite ParseFacts.join_cons2, mem_app, piece_text_has_eq. reflexivity.
Qed.

Lemma pipe_token_not_empty (ps : list piece) (p : piece) :
  pipe_token (p :: ps) <> "".
Proof.
  intros E. pose proof (pipe_token_has_eq ps p) as H.
  rewrite E in H. discriminate H.
Qed.

(** C9: a scanned token made of two or more pipe-joined [key=value]
    pieces, whatever their key names, makes [parse_command] store the
    values of all pieces, in order and as they stand, under the key of
    the last piece; the keys of the earlier pieces are dropped.  This
    holds of the loop body on any state; of a whole line
    [cmd pre.. token post..], where the entry is made on what the
    tokens before it left and handed to the tokens after it; and of
    the line that is the token alone. *)
Theorem parse_command_nested_last_key (items : list (string * string))
    (ps : list piece) (p : piece) :
  ps <> [] ->
  forallb piece_ok (ps ++ [p]) = true ->
  (forall keys opts,
     scan_token items (keys, opts) (pipe_token (ps ++ [p]))
     = Ok (<[pc_key p := KList (map pc_value (ps ++ [p]))]> keys, opts)) /\
  (blank_free (pipe_token (ps ++ [p])) = true ->
   (forall cmd pre post,
      plain_name cmd = true ->
      Forall (fun t => t <> "" /\ blank_free t = true) pre ->
      Forall (fun t => t <> "" /\ blank_free t = true) post ->
      parse_command items
        (join " " (cmd :: pre ++ pipe_token (ps ++ [p]) :: post))
      = rbind (scan_tokens items pre (∅, []))
          (fun st =>
             rbind (scan_tokens items post
                      (<[pc_key p := KList (map pc_value (ps ++ [p]))]>
                         (fst st), snd st))
               (fun st' => Ok (Parsed (Some cmd) (fst st') (snd st'))))) /\
   parse_command items (pipe_token (ps ++ [p]))
   = Ok (Parsed None {[ pc_key p := KList (map pc_value (ps ++ [p])) ]} [])).
Proof.
  intros Hne Hok.
  assert (Hscan : forall keys opts,
    scan_token items (keys, opts) (pipe_token (ps ++ [p]))
    = Ok (<[pc_key p := KList (map pc_value (ps ++ [p]))]> keys, opts))
    by (intros; now apply Parsing.scan_token_nested_last_key).
  assert (Htok : pipe_token (ps ++ [p]) <> "").
  { destruct ps as [|q ps]; [congruence|]. apply pipe_token_not_empty. }
  assert (Heq : mem "=" (pipe_token (ps ++ [p])) = true).
  { destruct ps as [|q ps]; [congruence|]. apply pipe_token_has_eq. }
  split; [exact Hscan|]. intros Hb. split.
  - intros cmd pre post Hc Hpre Hpost.
    unfold plain_name in Hc. apply andb_true_iff in Hc as [Hc Hce].
    apply andb_true_iff in Hc as [Hcn Hcb].
    apply negb_true_iff, String.eqb_neq in Hcn. apply negb_true_iff in Hce.
    rewrite ParseFacts.parse_command_join.
    + unfold parse_tokens. cbn [getitem lookup list_lookup rbind].
      rewrite (length_split_plain _ _ Hce). cbn [drop]. rewrite drop_0.
      rewrite ParseFacts.scan_tokens_app.
      destruct (scan_tokens items pre (∅, [])) as [[keys opts]|e];
        cbn [rbind]; [|reflexivity].
      cbn [scan_tokens fst snd]. rewrite Hscan. cbn [rbind].
      destruct (scan_tokens items post _) as [st'|e]; cbn [rbind];
        [|reflexivity].
      destruct cmd; [congruence | reflexivity].
    + discriminate.
    + constructor; [now split|]. apply Forall_app. split; [assumption|].
      constructor; [now split | assumption].
  - assert (Hone : parse_command items (join " " [pipe_token (ps ++ [p])])
                   = parse_tokens items [pipe_token (ps ++ [p])]).
    { apply ParseFacts.parse_command_join; [discriminate|].
      constructor; [now split | constructor]. }
    cbn [join] in Hone. rewrite Hone.
    unfold parse_tokens. cbn [getitem lookup list_lookup rbind].
    rewrite (length_split_sep _ _ Heq). cbn [drop scan_tokens].
    rewrite Hscan. reflexivity.
Qed.

Lemma parse_command_nested_last_key_witness :
  parse_command ts3_escape "clientlist -uid cid=1|name=a\sb|sid=3 sid=9"
  = Ok (Parsed (Some "clientlist") {[ "sid" := KStr "9" ]} ["uid"]) /\
  parse_command ts3_escape "clientlist -uid cid=1|name=a\sb|sid=3"
  = Ok (Parsed (Some "clientlist")
          {[ "sid" := KList ["1"; "a\sb"; "3"] ]} ["uid"]) /\
  parse_command ts3_escape "cid=1|name=a\sb|sid=3"
  = Ok (Parsed None {[ "sid" := KList ["1"; "a\sb"; "3"] ]} []).
Proof.
  destruct (parse_command_nested_last_key ts3_escape
              [Piece "cid" "1" []; Piece "name" "a\sb" []]
              (Piece "sid" "3" [])) as [_ H];
    [discriminate | reflexivity |].
  destruct (H eq_refl) as [Hline Halone]. split; [|split].
  - assert (H1 := Hline "clientlist" ["-uid"] ["sid=9"] eq_refl).
    vm_compute. vm_compute in H1. apply H1;
      repeat constructor; discriminate.
  - assert (H1 := Hline "clientlist" ["-uid"] [] eq_refl).
    vm_compute. vm_compute in H1. apply H1;
      repeat constructor; discriminate.
  - exact Halone.
Defined.

End NestedFacts.


(** ** The request cycle: errors, end of file, connect and disconnect *)

Module CycleFacts.
Import PyStr PyStrFacts Wire Forms TS3Proto EscapeFacts Loop.

Ltac run_io :=
  cbv [send bind get log write act sockfile ret raise modify readline
       read_response status_id].

(** A malformed line stops the loop with its exception; the lines
    after it stay unread. *)
Lemma read_loop_raises (items : list (string * string))
    (lines : list string) (rows : list (gmap string keyval))
    (bad : string) (e : exn) (rest : list string)
    (acc : list (gmap string keyval)) :
  Forall2 (data_line items) lines rows ->
  parse_command items bad = Err e ->
  read_loop items (lines ++ bad :: rest) acc = (Raise e, rest).
Proof.
  intros Hd Hb. revert acc.
  induction Hd as [|l k lines rows [o Hk] Hd IH]; intros acc.
  - cbn [app read_loop]. now rewrite Hb.
  - cbn [app read_loop]. rewrite Hk. cbn [p_command p_keys]. apply IH.
Qed.

(** The whole of [send_command] on a stream that delivers data lines
    and then a line with a command. *)
Lemma send_command_run (items : list (string * string))
    (command : string) (keys : option (list (string * cmdval)))
    (opts : option (list string)) (st : session) (w : world)
    (f : socket) (lines : list string) (rows : list (gmap string keyval))
    (last name : string) (ks : gmap string keyval) (rest : list string) :
  _sockfile st = Obj f ->
  incoming w = lines ++ last :: rest ->
  Forall2 (data_line items) lines rows ->
  status_line items last name ks ->
  send_command items command keys opts st w
  = (resolve name ks rows, st,
     unread rest (after_send st (request items command keys opts) w)).
Proof.
  intros Hf Hin Hd [o Hl].
  unfold send_command, resolve, after_send, request, unread, written. run_io.
  assert (Hloop : forall w0, incoming w0 = incoming w ->
    read_loop items (incoming w0) []
    = (Return (Parsed (Some name) ks o, rows), rest)).
  { intros w0 ->. rewrite Hin.
    now rewrite (SessionFacts.read_loop_rows items lines rows last
                   (Parsed (Some name) ks o) name rest []). }
  destruct (_connected st); cbv beta iota; rewrite !Hf; cbv beta iota;
    cbn [incoming]; rewrite Hloop by reflexivity;
    cbn [p_command p_keys sent incoming];
    (destruct (bool_decide (Some name = Some "error")) eqn:B;
     [ apply bool_decide_eq_true in B; injection B as ->;
       rewrite bool_decide_eq_true_2 by reflexivity;
       destruct (ks !! "id") as [id|]; destruct rows; try reflexivity;
       destruct (bool_decide (id = KStr "0")); reflexivity
     | apply bool_decide_eq_false in B;
       rewrite bool_decide_eq_false_2 by congruence; reflexivity ]).
Qed.

(** X10: a status line [error] that carries no [id] makes
    [send_command] raise [KeyError]. *)
Theorem send_command_missing_id (items : list (string * string))
    (command : string) (keys : option (list (string * cmdval)))
    (opts : option (list string)) (st : session) (w : world)
    (f : socket) (lines : list string) (rows : list (gmap string keyval))
    (last : string) (ks : gmap string keyval) (rest : list string) :
  _sockfile st = Obj f ->
  incoming w = lines ++ last :: rest ->
  Forall2 (data_line items) lines rows ->
  status_line items last "error" ks ->
  ks !! "id" = None ->
  fst (fst (send_command items command keys opts st w))
  = Raise (KeyError "id").
Proof.
  intros Hf Hin Hd Hl Hid.
  rewrite (send_command_run items command keys opts st w f lines rows
             last "error" ks rest) by assumption.
  unfold resolve. cbn [fst]. now rewrite bool_decide_eq_true_2, Hid.
Qed.

Lemma send_command_missing_id_witness :
  fst (fst (send_command ts3_escape "version" None None
              (Session 0 0 true (Obj (Socket "h" 10011))
                       (Obj (Socket "h" 10011)))
              (World None ["error msg=ok"] false [] false [])))
  = Raise (KeyError "id").
Proof.
  apply (send_command_missing_id ts3_escape "version" None None
           (Session 0 0 true (Obj (Socket "h" 10011)) (Obj (Socket "h" 10011)))
           (World None ["error msg=ok"] false [] false [])
           (Socket "h" 10011) [] [] "error msg=ok"
           {[ "msg" := KStr "ok" ]} []).
  - reflexivity.
  - reflexivity.
  - constructor.
  - exists []. vm_compute. reflexivity.
  - vm_compute. reflexivity.
Defined.

(** X11: a line that [parse_command] cannot parse, arriving before the
    status line, ends [send_command] with [IndexError]; the request was
    written, the session is unchanged and the lines after the bad one
    stay unread. *)
Theorem send_command_bad_line (items : list (string * string))
    (command : string) (keys : option (list (string * cmdval)))
    (opts : option (list string)) (st : session) (w : world)
    (f : socket) (lines : list string) (rows : list (gmap string keyval))
    (bad : string) (e : exn) (rest : list string) :
  _sockfile st = Obj f ->
  incoming w = lines ++ bad :: rest ->
  Forall2 (data_line items) lines rows ->
  parse_command items bad = Err e ->
  send_command items command keys opts st w
  = (Raise IndexError, st,
     unread rest (after_send st (request items command keys opts) w)).
Proof.
  intros Hf Hin Hd Hb.
  assert (He : e = IndexError).
  { unfold parse_command, parse_tokens in Hb.
    destruct (getitem _ 0) as [c|e0] eqn:E0; cbn [rbind] in Hb;
      [|injection Hb as <-; now apply ParseFacts.getitem_err in E0].
    destruct (Nat.ltb 1 (length (split "=" c)));
      match type of Hb with
      | context [scan_tokens ?i ?t ?s] =>
          destruct (scan_tokens i t s) as [x|e1] eqn:E1
      end; cbn [rbind] in Hb; try discriminate Hb;
      injection Hb as <-; now apply ParseFacts.scan_tokens_err in E1. }
  subst e.
  unfold send_command, after_send, request, unread, written. run_io.
  assert (Hloop : forall w0, incoming w0 = incoming w ->
    read_loop items (incoming w0) [] = (Raise IndexError, rest)).
  { intros w0 ->. rewrite Hin.
    now rewrite (read_loop_raises items lines rows bad IndexError rest []). }
  destruct (_connected st); cbv beta iota; rewrite !Hf; cbv beta iota;
    cbn [incoming]; rewrite Hloop by reflexivity; reflexivity.
Qed.

Lemma send_command_bad_line_witness :
  fst (fst (send_command ts3_escape "clientlist" None None
              (Session 0 0 true (Obj (Socket "h" 10011))
                       (Obj (Socket "h" 10011)))
              (World None ["clid=1"; "clid=2  cid=1"; "error id=0 msg=ok"]
                     false [] false [])))
  = Raise IndexError.
Proof.
  rewrite (send_command_bad_line ts3_escape "clientlist" None None
             (Session 0 0 true (Obj (Socket "h" 10011))
                      (Obj (Socket "h" 10011)))
             (World None ["clid=1"; "clid=2  cid=1"; "error id=0 msg=ok"]
                    false [] false [])
             (Socket "h" 10011) ["clid=1"] [ {[ "clid" := KStr "1" ]} ]
             "clid=2  cid=1" IndexError ["error id=0 msg=ok"]).
  - reflexivity.
  - reflexivity.
  - reflexivity.
  - repeat constructor. exists []. vm_compute. reflexivity.
  - vm_compute. reflexivity.
Defined.

(** X12: on a session that was never connected, [send_command] and
    [disconnect] raise [AttributeError] for the missing stream; nothing
    is written, nothing is read and the session is unchanged. *)
Theorem send_command_unconnected (items : list (string * string))
    (command : string) (keys : option (list (string * cmdval)))
    (opts : option (list string)) (st : session) (w : world) :
  _connected st = false -> _sockfile st = Unset ->
  send_command items command keys opts st w
  = (Raise (AttributeError "_sockfile"), st, w) /\
  disconnect items st w = (Raise (AttributeError "_sockfile"), st, w).
Proof.
  intros Hc Hf.
  assert (H : forall c k o, send_command items c k o st w
                            = (Raise (AttributeError "_sockfile"), st, w)).
  { intros c k o. unfold send_command. run_io. now rewrite Hc, Hf. }
  split; [apply H|]. unfold disconnect. unfold bind at 1. now rewrite H.
Qed.

Lemma send_command_unconnected_witness :
  send_command ts3_escape "serverlist" None None new_session
    (World None ["error id=0 msg=ok"] false [] false [])
  = (Raise (AttributeError "_sockfile"), new_session,
     World None ["error id=0 msg=ok"] false [] false []).
Proof.
  apply (send_command_unconnected ts3_escape "serverlist" None None
           new_session (World None ["error id=0 msg=ok"] false [] false []));
    reflexivity.
Defined.

(** *** The loop at end of file *)

Lemma unread_self (w : world) : unread (incoming w) w = w.
Proof. now destruct w. Qed.

(** X13: once the peer has closed the stream, [readline] returns the
    empty string and the loop of [send_command] takes it for a data
    line: if no line with a command came before, the loop is still
    running after any number of turns, and each turn past the last
    line adds one empty mapping to [ret]. *)
Theorem loop_spins_at_eof (items : list (string * string)) (st : session)
    (f : socket) (lines : list string) (rows : list (gmap string keyval))
    (w : world) (acc : list (gmap string keyval)) (n : nat) :
  _sockfile st = Obj f ->
  Forall2 (data_line items) lines rows ->
  incoming w = lines ->
  eof w = true ->
  length lines <= n ->
  loop_steps items n acc st w
  = (Return (None, acc ++ rows ++ replicate (n - length lines) ∅),
     st, unread [] w).
Proof.
  intros Hf Hd. revert w acc n.
  induction Hd as [|l k lines rows [o Hk] Hd IH]; intros w acc n Hin He Hn.
  - clear Hn. cbn [length app]. rewrite Nat.sub_0_r. rewrite <- Hin.
    rewrite unread_self. revert acc.
    induction n as [|n IHn]; intros acc.
    + cbn [loop_steps replicate]. unfold ret. now rewrite List.app_nil_r.
    + cbn [loop_steps]. run_io. rewrite Hf, Hin, He.
      change (parse_command items "") with (Ok (Parsed None ∅ [])).
      cbn [p_command p_keys]. rewrite IHn. cbn [replicate].
      now rewrite <- List.app_assoc.
  - destruct n as [|n]; [cbn [length] in Hn; lia|].
    cbn [length] in Hn. cbn [loop_steps]. run_io. rewrite Hf, Hin, Hk.
    cbn [p_command p_keys Nat.sub].
    replace (acc ++ (k :: rows) ++ replicate (n - length lines) ∅)
      with ((acc ++ [k]) ++ rows ++ replicate (n - length lines) ∅)
      by now rewrite <- List.app_assoc.
    apply (IH (unread lines w) (acc ++ [k]) n); [reflexivity | exact He | lia].
Qed.

Lemma loop_spins_at_eof_witness :
  fst (fst (loop_steps ts3_escape 5 []
              (Session 0 0 true (Obj (Socket "h" 10011))
                       (Obj (Socket "h" 10011)))
              (World None ["clid=1"] true [] false [])))
  = Return (None, [ {[ "clid" := KStr "1" ]}; ∅; ∅; ∅; ∅ ]).
Proof.
  rewrite (loop_spins_at_eof ts3_escape
             (Session 0 0 true (Obj (Socket "h" 10011))
                      (Obj (Socket "h" 10011)))
             (Socket "h" 10011) ["clid=1"] [ {[ "clid" := KStr "1" ]} ]
             (World None ["clid=1"] true [] false []) [] 5).
  - reflexivity.
  - reflexivity.
  - repeat constructor. exists []. vm_compute. reflexivity.
  - reflexivity.
  - reflexivity.
  - cbn [length]. lia.
Defined.

(** Where the loop of [send_command] ends, the loop taken one
    [readline] at a time ends too, in the same way. *)
Lemma loop_steps_read_loop (items : list (string * string)) (st : session)
    (f : socket) (lines : list string) :
  _sockfile st = Obj f ->
  forall (w : world) (acc : list (gmap string keyval))
         (o : outcome (parsed * list (gmap string keyval)))
         (rest : list string),
    incoming w = lines ->
    read_loop items lines acc = (o, rest) ->
    o <> Hang ->
    exists n,
      loop_steps items n acc st w
      = (match o with
         | Return x => Return (Some x, snd x)
         | Raise e => Raise e
         | Hang => Hang
         end, st, unread rest w).
Proof.
  intros Hf. induction lines as [|l lines IH]; intros w acc o rest Hin Hr Ho.
  - cbn [read_loop] in Hr. injection Hr as <- <-. congruence.
  - cbn [read_loop] in Hr.
    destruct (parse_command items l) as [resp|e] eqn:Hp.
    + destruct (p_command resp) as [c|] eqn:Hc.
      * injection Hr as <- <-. exists 1. cbn [loop_steps]. run_io.
        now rewrite Hf, Hin, Hp, Hc.
      * destruct (IH (unread lines w) _ o rest eq_refl Hr Ho) as [n Hn].
        exists (S n). cbn [loop_steps]. run_io.
        rewrite Hf, Hin, Hp, Hc. exact Hn.
    + injection Hr as <- <-. exists 1. cbn [loop_steps]. run_io.
      now rewrite Hf, Hin, Hp.
Qed.

(** *** Connect and disconnect *)

Lemma connect_run (ip : string) (port : Z) (st : session) (w : world)
    (banner : string) (rest : list string) :
  refuse w = None ->
  incoming w = banner :: rest ->
  connect ip port st w
  = (Return (if String.eqb (strip banner) "TS3" then Some true else None),
     {| bytesin := bytesin st; bytesout := bytesout st;
        _connected := String.eqb (strip banner) "TS3" || _connected st;
        _sock := Obj (Socket ip port); _sockfile := Obj (Socket ip port) |},
     unread rest w).
Proof.
  intros Hr Hin. destruct w as [r i e s c l].
  cbn [refuse incoming] in Hr, Hin. subst r i.
  unfold connect, unread. run_io.
  cbn [refuse incoming eof sent closed logged _sockfile].
  now destruct (String.eqb (strip banner) "TS3").
Qed.

(** X14: when the first line the peer sends is not [TS3], [connect]
    raises nothing and returns [None]; the socket and its stream stay
    on the session, which is not marked connected, so that a [send] or
    a [serverlist] that follows returns without writing anything. *)
Theorem connect_wrong_banner (items : list (string * string))
    (ip : string) (port : Z) (st : session) (w : world)
    (banner : string) (rest : list string) (payload : string) :
  refuse w = None ->
  incoming w = banner :: rest ->
  strip banner <> "TS3" ->
  _connected st = false ->
  connect ip port st w
  = (Return None,
     {| bytesin := bytesin st; bytesout := bytesout st; _connected := false;
        _sock := Obj (Socket ip port); _sockfile := Obj (Socket ip port) |},
     unread rest w) /\
  snd (bind (connect ip port) (fun _ => send payload) st w) = unread rest w /\
  bind (connect ip port) (fun _ => TS3Server.serverlist items) st w
  = (Return NoReply,
     {| bytesin := bytesin st; bytesout := bytesout st; _connected := false;
        _sock := Obj (Socket ip port); _sockfile := Obj (Socket ip port) |},
     unread rest w).
Proof.
  intros Hr Hin Hb Hc.
  pose proof (connect_run ip port st w banner rest Hr Hin) as Hrun.
  apply String.eqb_neq in Hb. rewrite Hb, Hc in Hrun. cbn [orb] in Hrun.
  split; [exact Hrun|]. unfold bind. rewrite Hrun. split; reflexivity.
Qed.

Lemma connect_wrong_banner_witness :
  connect "10.0.0.1" 10011 new_session
    (World None ["SSH-2.0-OpenSSH"; "more"] false [] false [])
  = (Return None,
     Session 0 0 false (Obj (Socket "10.0.0.1" 10011))
             (Obj (Socket "10.0.0.1" 10011)),
     World None ["more"] false [] false []).
Proof.
  apply (connect_wrong_banner ts3_escape "10.0.0.1" 10011 new_session
           (World None ["SSH-2.0-OpenSSH"; "more"] false [] false [])
           "SSH-2.0-OpenSSH" ["more"] "quit").
  - reflexivity.
  - reflexivity.
  - discriminate.
  - reflexivity.
Defined.

(** X15: [disconnect] on a session with its socket, when the peer
    answers [quit] with a status line, writes [quit] (if the session is
    connected), closes the socket, puts [None] in [_sock] and clears
    the connected flag; the status of the answer is not looked at. *)
Theorem disconnect_closes (items : list (string * string)) (st : session)
    (w : world) (f s : socket) (lines : list string)
    (rows : list (gmap string keyval)) (last name : string)
    (ks : gmap string keyval) (rest : list string) :
  _sockfile st = Obj f -> _sock st = Obj s ->
  incoming w = lines ++ last :: rest ->
  Forall2 (data_line items) lines rows ->
  status_line items last name ks ->
  (name = "error" -> is_Some (ks !! "id")) ->
  exists w',
    disconnect items st w
    = (Return tt,
       {| bytesin := bytesin st; bytesout := bytesout st;
          _connected := false; _sock := PyNone; _sockfile := _sockfile st |},
       w') /\
    closed w' = true /\ incoming w' = rest /\
    sent w' = (if _connected st
               then sent w ++ ["quit" +:+ String (chr 10) ""] else sent w).
Proof.
  intros Hf Hs Hin Hd Hl Hid. unfold disconnect. unfold bind at 1.
  rewrite (send_command_run items "quit" None None st w f lines rows
             last name ks rest) by assumption.
  assert (Hres : exists r, resolve name ks rows = Return r).
  { unfold resolve. destruct (bool_decide (name = "error")) eqn:B;
      [|now eexists].
    apply bool_decide_eq_true in B. destruct (Hid B) as [id ->].
    destruct rows; [now eexists|]. destruct (bool_decide _); now eexists. }
  destruct Hres as [r ->]. run_io. rewrite Hs. cbv beta iota.
  eexists. split; [reflexivity|]. cbn [closed incoming sent].
  unfold after_send, unread, written. repeat split.
  destruct (_connected st); reflexivity.
Qed.

Lemma disconnect_closes_witness :
  exists w',
    disconnect ts3_escape
      (Session 0 0 true (Obj (Socket "h" 10011)) (Obj (Socket "h" 10011)))
      (World None ["error id=0 msg=ok"] false ["use 1"] false [])
    = (Return tt,
       Session 0 0 false PyNone (Obj (Socket "h" 10011)), w') /\
    closed w' = true /\ incoming w' = [] /\
    sent w' = ["use 1"] ++ ["quit" +:+ String (chr 10) ""].
Proof.
  apply (disconnect_closes ts3_escape
           (Session 0 0 true (Obj (Socket "h" 10011)) (Obj (Socket "h" 10011)))
           (World None ["error id=0 msg=ok"] false ["use 1"] false [])
           (Socket "h" 10011) (Socket "h" 10011) [] [] "error id=0 msg=ok"
           "error" {[ "id" := KStr "0"; "msg" := KStr "ok" ]} []).
  - reflexivity.
  - reflexivity.
  - reflexivity.
  - constructor.
  - exists []. vm_compute. reflexivity.
  - intros _. vm_compute. eauto.
Defined.

(** X16: [connect] hands [send_command] the session it needs: after a
    banner [TS3], the request is written on the new stream and the
    cycle ends as the status line says. *)
Theorem connect_then_send_command (items : list (string * string))
    (ip : string) (port : Z) (command : string)
    (keys : option (list (string * cmdval))) (opts : option (list string))
    (st : session) (w : world) (banner : string) (lines : list string)
    (rows : list (gmap string keyval)) (last name : string)
    (ks : gmap string keyval) (rest : list string) :
  refuse w = None ->
  incoming w = banner :: lines ++ last :: rest ->
  strip banner = "TS3" ->
  Forall2 (data_line items) lines rows ->
  status_line items last name ks ->
  exists w',
    bind (connect ip port) (fun _ => send_command items command keys opts) st w
    = (resolve name ks rows,
       {| bytesin := bytesin st; bytesout := bytesout st; _connected := true;
          _sock := Obj (Socket ip port); _sockfile := Obj (Socket ip port) |},
       w') /\
    incoming w' = rest /\
    sent w' = sent w ++ [request items command keys opts].
Proof.
  intros Hr Hin Hb Hd Hl. unfold bind.
  rewrite (connect_run ip port st w banner (lines ++ last :: rest) Hr Hin).
  rewrite Hb. cbn [String.eqb Ascii.eqb Bool.eqb orb].
  erewrite (send_command_run items command keys opts _ _ (Socket ip port)
              lines rows last name ks rest);
    [|reflexivity|reflexivity|assumption|assumption].
  eexists. split; [reflexivity|]. split; reflexivity.
Qed.

Lemma connect_then_send_command_witness :
  exists w',
    bind (connect "h" 10011)
         (fun _ => send_command ts3_escape "serverlist" None None)
         new_session
         (World None ["TS3"; "sid=1"; "error id=0 msg=ok"] false [] false [])
    = (resolve "error" {[ "id" := KStr "0"; "msg" := KStr "ok" ]}
         [ {[ "sid" := KStr "1" ]} ],
       Session 0 0 true (Obj (Socket "h" 10011)) (Obj (Socket "h" 10011)),
       w') /\
    incoming w' = [] /\
    sent w' = [] ++ [request ts3_escape "serverlist" None None].
Proof.
  apply (connect_then_send_command ts3_escape "h" 10011 "serverlist" None None
           new_session
           (World None ["TS3"; "sid=1"; "error id=0 msg=ok"] false [] false [])
           "TS3" ["sid=1"] [ {[ "sid" := KStr "1" ]} ] "error id=0 msg=ok"
           "error" {[ "id" := KStr "0"; "msg" := KStr "ok" ]} []).
  - reflexivity.
  - reflexivity.
  - reflexivity.
  - repeat constructor. exists []. vm_compute. reflexivity.
  - exists []. vm_compute. reflexivity.
Defined.

End CycleFacts.


(** ** The facade, the session invariant and what a line can hold *)

Module FacadeFacts.
Import PyStr PyStrFacts Wire Forms TS3Proto EscapeFacts TS3Server.

Ltac run_io :=
  cbv [send bind get log write act sockfile ret raise modify readline
       read_response status_id].

(** *** The commands leave the session alone *)

Section Frames.

Variable items : list (string * string).
Variable dict_order : list (string * cmdval) -> list (string * cmdval).

Lemma get_bind_session {A} (k : session -> io A) :
  (forall self st w, snd (fst (k self st w)) = st) ->
  forall st w, snd (fst (bind get k st w)) = st.
Proof. intros H st w. unfold bind, get. apply H. Qed.

Lemma use_session (id : Z) (st : session) (w : world) :
  snd (fst (use items id st w)) = st.
Proof.
  revert st w. unfold use. apply get_bind_session. intros self.
  destruct (_connected self && (0 <? id)%Z); [|reflexivity].
  apply SessionFacts.bind_session; [|reflexivity].
  intros. apply SessionFacts.send_command_session.
Qed.

Lemma serverlist_session (st : session) (w : world) :
  snd (fst (serverlist items st w)) = st.
Proof.
  revert st w. unfold serverlist. apply get_bind_session. intros self.
  destruct (_connected self); [|reflexivity].
  intros. apply SessionFacts.send_command_session.
Qed.

Lemma gm_session (msg : pyval) (st : session) (w : world) :
  snd (fst (gm items msg st w)) = st.
Proof.
  revert st w. unfold gm. apply get_bind_session. intros self.
  destruct (_connected self); [|reflexivity].
  intros. apply SessionFacts.send_command_session.
Qed.

Lemma login_verdict_session (d : reply) (st : session) (w : world) :
  snd (fst (login_verdict d st w)) = st.
Proof. unfold login_verdict. destruct (gt_zero d); reflexivity. Qed.

Lemma login_session (p : global_p) (username password : pyval)
    (st : session) (w : world) :
  snd (fst (fst (login items dict_order p username password st w))) = st.
Proof.
  unfold login. destruct p as [| |stp wp]; [reflexivity| |].
  - pose proof (SessionFacts.bind_session
                  (login_request items dict_order username password)
                  login_verdict
                  (fun st w => SessionFacts.send_command_session items _ _ _ st w)
                  login_verdict_session st w) as H.
    destruct (bind _ _ st w) as [[o st'] w']. exact H.
  - destruct (login_request _ _ _ _ stp _) as [[[d| |] stp'] wp'];
      try reflexivity.
    pose proof (login_verdict_session d st (with_log (logged wp') w)) as H.
    destruct (login_verdict d st _) as [[o st'] w']. exact H.
Qed.

Lemma init_session_ok (ip : string) (port id : Z) (sock : option socket)
    (st : session) (w : world) :
  session_ok st = true ->
  session_ok (snd (fst (init items ip port id sock st w))) = true.
Proof.
  intros Hok. destruct sock as [s|]; [reflexivity|].
  unfold init. unfold bind.
  pose proof (SessionFacts.connect_session_ok ip port st w Hok) as Hc.
  destruct (connect ip port st w) as [[[c| |] st'] w']; cbn [fst snd] in *;
    try assumption.
  destruct c as [[|]|]; try assumption.
  destruct (0 <? id)%Z; [|assumption]. now rewrite use_session.
Qed.

(** X17: a session that is marked connected has its stream, and every
    operation keeps it so: [connect], [disconnect] and the constructor
    may change the session but keep the invariant; [send],
    [send_command], [use], [serverlist], [gm] and [login] (whatever
    the module-level [p] is bound to) return the session exactly as
    they found it. *)
Theorem session_ok_kept (st : session) (w : world) :
  session_ok st = true ->
  (forall ip port, session_ok (snd (fst (connect ip port st w))) = true) /\
  session_ok (snd (fst (disconnect items st w))) = true /\
  (forall ip port id sock,
     session_ok (snd (fst (init items ip port id sock st w))) = true) /\
  (forall payload, snd (fst (send payload st w)) = st) /\
  (forall c k o, snd (fst (send_command items c k o st w)) = st) /\
  (forall id, snd (fst (use items id st w)) = st) /\
  snd (fst (serverlist items st w)) = st /\
  (forall msg, snd (fst (gm items msg st w)) = st) /\
  (forall g u p,
     snd (fst (fst (login items dict_order g u p st w))) = st).
Proof.
  intros Hok. repeat split; intros.
  - now apply SessionFacts.connect_session_ok.
  - now apply SessionFacts.disconnect_session_ok.
  - now apply init_session_ok.
  - apply SessionFacts.send_session.
  - apply SessionFacts.send_command_session.
  - apply use_session.
  - apply serverlist_session.
  - apply gm_session.
  - apply login_session.
Qed.

(** X18: [login] never returns [True], whatever the module-level [p]
    is bound to: what [send_command] returns is a string, a list or
    [None], never the number the test for success compares it with. *)
Theorem login_never_true (p : global_p) (username password : pyval)
    (st : session) (w : world) :
  fst (fst (fst (login items dict_order p username password st w)))
  <> Finished (Return (Some true)).
Proof.
  assert (Hv : forall d st w,
             fst (fst (login_verdict d st w)) <> Return (Some true)).
  { intros d st0 w0. unfold login_verdict.
    destruct (gt_zero d); cbn [eq_zero]; run_io; cbn [fst]; discriminate. }
  unfold login. destruct p as [| |stp wp]; [discriminate| |].
  - unfold bind.
    destruct (login_request _ _ _ _ st w) as [[[d| |] st'] w'];
      try discriminate.
    specialize (Hv d st' w').
    destruct (login_verdict d st' w') as [[o st''] w'']. cbn [fst] in *.
    congruence.
  - destruct (login_request _ _ _ _ stp _) as [[[d| |] stp'] wp'];
      try discriminate.
    specialize (Hv d st (with_log (logged wp') w)).
    destruct (login_verdict d st _) as [[o st''] w'']. cbn [fst] in *.
    congruence.
Qed.

End Frames.

Lemma session_ok_kept_witness :
  session_ok
    (snd (fst (connect "h" 10011 new_session
                 (World None ["TS3"] false [] false [])))) = true.
Proof.
  apply (session_ok_kept ts3_escape (fun l => l) new_session
           (World None ["TS3"] false [] false [])).
  reflexivity.
Defined.

(** X19: [login] as the script runs it, with the module-level [p]
    bound to the instance it is called on: when the server accepts the
    login (status [error id=0]), [login] still takes the answer for a
    failure, logs the error and returns [False].  With [p] unbound, as
    in an importing program, the call ends in [NameError] and nothing
    is written, read or changed. *)
Theorem login_reports_failure (items : list (string * string))
    (dict_order : list (string * cmdval) -> list (string * cmdval))
    (username password : pyval) (st : session) (w : world) (f : socket)
    (last : string) (ks : gmap string keyval) (rest : list string) :
  _sockfile st = Obj f ->
  incoming w = last :: rest ->
  status_line items last "error" ks ->
  ks !! "id" = Some (KStr "0") ->
  (exists w',
     login items dict_order Itself username password st w
     = (Finished (Return (Some false)), st, w', Itself) /\
     last_error w' = Some "Error logging in" /\
     incoming w' = rest) /\
  login items dict_order Unbound username password st w
  = (NameError "p", st, w, Unbound).
Proof.
  intros Hf Hin Hl Hid. split; [|reflexivity].
  unfold login, login_request. unfold bind at 1.
  rewrite (CycleFacts.send_command_run items "login" _ None st w f [] []
             last "error" ks rest Hf Hin ltac:(constructor) Hl).
  unfold resolve. rewrite bool_decide_eq_true_2 by reflexivity. rewrite Hid.
  unfold login_verdict. cbn [gt_zero]. run_io. eexists.
  split; [reflexivity|].
  unfold last_error. cbn [logged incoming]. split; [|reflexivity].
  now rewrite last_snoc.
Qed.

Lemma login_reports_failure_witness :
  exists w',
    login ts3_escape (fun l => l) Itself
      (PyStr "serveradmin") (PyStr "secret")
      (Session 0 0 true (Obj (Socket "h" 10011)) (Obj (Socket "h" 10011)))
      (World None ["error id=0 msg=ok"] false [] false [])
    = (Finished (Return (Some false)),
       Session 0 0 true (Obj (Socket "h" 10011)) (Obj (Socket "h" 10011)),
       w', Itself) /\
    last_error w' = Some "Error logging in" /\
    incoming w' = [].
Proof.
  apply (login_reports_failure ts3_escape (fun l => l)
           (PyStr "serveradmin") (PyStr "secret")
           (Session 0 0 true (Obj (Socket "h" 10011)) (Obj (Socket "h" 10011)))
           (World None ["error id=0 msg=ok"] false [] false [])
           (Socket "h" 10011) "error id=0 msg=ok"
           {[ "id" := KStr "0"; "msg" := KStr "ok" ]} []).
  - reflexivity.
  - reflexivity.
  - exists []. vm_compute. reflexivity.
  - vm_compute. reflexivity.
Defined.

(** *** What [gm] and [use] write *)

(** X20: on a connected session, [gm] writes one line, [gm msg=]
    followed by the message with every character escaped on its own,
    and returns what the cycle ends in; the escaped message holds no
    blank, so the text can neither add a token nor end the line. *)
Theorem gm_line (items : list (string * string)) (msg : string)
    (st : session) (w : world) (f : socket) (lines : list string)
    (rows : list (gmap string keyval)) (last name : string)
    (ks : gmap string keyval) (rest : list string) :
  Permutation items ts3_escape ->
  _connected st = true -> _sockfile st = Obj f ->
  incoming w = lines ++ last :: rest ->
  Forall2 (data_line items) lines rows ->
  status_line items last name ks ->
  gm items (PyStr msg) st w
  = (resolve name ks rows, st,
     unread rest
       (written ("gm msg=" +:+ escape_chars msg +:+ String (chr 10) "") w)) /\
  blank_free (escape_chars msg) = true.
Proof.
  intros Hp Hc Hf Hin Hd Hl. split.
  - unfold gm, bind at 1, get. rewrite Hc.
    rewrite (CycleFacts.send_command_run items "gm" _ None st w f lines rows
               last name ks rest) by assumption.
    unfold after_send, request. rewrite Hc.
    unfold construct_command. cbn [app fold_left construct_key snd fst].
    unfold fmt_pair. rewrite (escape_str_chars items Hp). reflexivity.
  - apply ParseFacts.blank_free_intro. intros c Hs.
    apply Escaping.escape_chars_no_separator, ParseFacts.isspace_separator, Hs.
Qed.

Lemma gm_line_witness :
  gm ts3_escape (PyStr "hello all") 
    (Session 0 0 true (Obj (Socket "h" 10011)) (Obj (Socket "h" 10011)))
    (World None ["error id=0 msg=ok"] false [] false [])
  = (resolve "error" {[ "id" := KStr "0"; "msg" := KStr "ok" ]} [],
     Session 0 0 true (Obj (Socket "h" 10011)) (Obj (Socket "h" 10011)),
     unread []
       (written ("gm msg=" +:+ escape_chars "hello all"
                 +:+ String (chr 10) "")
          (World None ["error id=0 msg=ok"] false [] false []))).
Proof.
  apply (gm_line ts3_escape "hello all"
           (Session 0 0 true (Obj (Socket "h" 10011)) (Obj (Socket "h" 10011)))
           (World None ["error id=0 msg=ok"] false [] false [])
           (Socket "h" 10011) [] [] "error id=0 msg=ok" "error"
           {[ "id" := KStr "0"; "msg" := KStr "ok" ]} []).
  - reflexivity.
  - reflexivity.
  - reflexivity.
  - reflexivity.
  - constructor.
  - exists []. vm_compute. reflexivity.
Defined.

(** X21: [use] does nothing for an id that is not positive; for a
    positive id on a connected session it writes [use sid=] and the id
    in decimal, and returns [None] whatever status the server answers
    with. *)
Theorem use_line (items : list (string * string)) (id : Z)
    (st : session) (w : world) (f : socket) (lines : list string)
    (rows : list (gmap string keyval)) (last name : string)
    (ks : gmap string keyval) (rest : list string) :
  _connected st = true -> _sockfile st = Obj f ->
  incoming w = lines ++ last :: rest ->
  Forall2 (data_line items) lines rows ->
  status_line items last name ks ->
  (name = "error" -> is_Some (ks !! "id")) ->
  use items id st w
  = if (0 <? id)%Z
    then (Return tt, st,
          unread rest
            (written ("use sid=" +:+ fmt_d id +:+ String (chr 10) "") w))
    else (Return tt, st, w).
Proof.
  intros Hc Hf Hin Hd Hl Hid. unfold use, bind at 1, get. rewrite Hc.
  destruct (0 <? id)%Z; [|reflexivity]. cbn [andb]. unfold bind.
  rewrite (CycleFacts.send_command_run items "use" _ None st w f lines rows
             last name ks rest) by assumption.
  assert (Hres : exists r, resolve name ks rows = Return r).
  { unfold resolve. destruct (bool_decide (name = "error")) eqn:B;
      [|now eexists].
    apply bool_decide_eq_true in B. destruct (Hid B) as [v ->].
    destruct rows; [now eexists|]. destruct (bool_decide _); now eexists. }
  destruct Hres as [r ->]. unfold after_send, request, ret. now rewrite Hc.
Qed.

Lemma use_line_witness :
  use ts3_escape 2
    (Session 0 0 true (Obj (Socket "h" 10011)) (Obj (Socket "h" 10011)))
    (World None ["error id=1024 msg=invalid\sserverID"] false [] false [])
  = (Return tt,
     Session 0 0 true (Obj (Socket "h" 10011)) (Obj (Socket "h" 10011)),
     unread []
       (written ("use sid=2" +:+ String (chr 10) "")
          (World None ["error id=1024 msg=invalid\sserverID"]
                 false [] false []))).
Proof.
  apply (use_line ts3_escape 2
           (Session 0 0 true (Obj (Socket "h" 10011)) (Obj (Socket "h" 10011)))
           (World None ["error id=1024 msg=invalid\sserverID"]
                  false [] false [])
           (Socket "h" 10011) [] [] "error id=1024 msg=invalid\sserverID"
           "error"
           {[ "id" := KStr "1024"; "msg" := KStr "invalid serverID" ]} []).
  - reflexivity.
  - reflexivity.
  - reflexivity.
  - constructor.
  - exists []. vm_compute. reflexivity.
  - intros _. vm_compute. eauto.
Defined.

(** *** Control characters in a constructed line *)

Lemma controls_separators (c : ascii) : In c controls -> In c separators.
Proof. cbn. tauto. Qed.

Lemma controls_not_joiner (c : ascii) :
  In c controls ->
  mem c " " = false /\ mem c "|" = false /\ mem c "=" = false /\
  mem c "-" = false.
Proof. cbn [In controls]. intuition (subst c; reflexivity). Qed.

Lemma escape_value_no_control (items : list (string * string)) (v : pyval)
    (c : ascii) :
  Permutation items ts3_escape -> In c controls ->
  mem c (_escape_str items v) = false.
Proof.
  intros Hp Hc. apply controls_separators in Hc. destruct v as [n|s].
  - now apply Escaping.fmt_d_no_separator.
  - rewrite (escape_str_chars items Hp).
    now apply Escaping.escape_chars_no_separator.
Qed.

Lemma key_token_no_control (items : list (string * string))
    (kv : string * cmdval) (c : ascii) :
  Permutation items ts3_escape -> In c controls ->
  mem c (fst kv) = false ->
  mem c (key_token items kv) = false.
Proof.
  intros Hp Hc Hk. destruct (controls_not_joiner c Hc) as (_ & Hpipe & Heq & _).
  assert (Hpair : forall v, mem c (fst kv +:+ "=" +:+ _escape_str items v)
                            = false).
  { intros v. now rewrite !mem_app, Hk, Heq, escape_value_no_control. }
  unfold key_token. destruct (snd kv) as [v|l]; [apply Hpair|].
  apply Parsing.mem_join; [assumption|].
  apply List.Forall_forall. intros t Ht.
  apply in_map_iff in Ht as [v [<- _]]. apply Hpair.
Qed.

(** X22: a control character of the escape table (line feed and
    carriage return among them) gets into the line [construct_command]
    builds only through the command name, the name of a key or an
    option; no value, scalar or nested, can bring one in. *)
Theorem construct_command_controls (items : list (string * string))
    (command : string) (keys : option (list (string * cmdval)))
    (opts : option (list string)) (c : ascii) :
  Permutation items ts3_escape ->
  In c controls ->
  mem c command = false ->
  forallb (fun kv => negb (mem c (fst kv))) (default [] keys) = true ->
  forallb (fun o => negb (mem c o)) (default [] opts) = true ->
  mem c (construct_command items command keys opts) = false.
Proof.
  intros Hp Hc Hn Hk Ho.
  destruct (controls_not_joiner c Hc) as (Hsp & _ & _ & Hd).
  rewrite ParseFacts.construct_command_wire. unfold wire_line.
  apply Parsing.mem_join; [assumption|].
  constructor; [assumption|]. apply Forall_app. split.
  - rewrite forallb_forall in Hk. apply List.Forall_forall.
    intros t Ht. apply in_map_iff in Ht as [kv [<- Hin]].
    apply key_token_no_control; try assumption.
    now apply negb_true_iff, Hk.
  - rewrite forallb_forall in Ho. apply List.Forall_forall.
    intros t Ht. apply in_map_iff in Ht as [o [<- Hin]].
    rewrite mem_app, Hd. now apply negb_true_iff, Ho.
Qed.

Lemma construct_command_controls_witness :
  mem (chr 10)
    (construct_command ts3_escape "gm"
       (Some [("msg", Scalar (PyStr ("one" +:+ String (chr 10) "quit")))])
       None)
  = false.
Proof.
  apply (construct_command_controls ts3_escape "gm"
           (Some [("msg", Scalar (PyStr ("one" +:+ String (chr 10) "quit")))])
           None (chr 10)).
  - reflexivity.
  - cbn. tauto.
  - reflexivity.
  - reflexivity.
  - reflexivity.
Defined.

End FacadeFacts.

